(** * proj2_nps: the persistent cache and the retrieval pipeline it backs

    A shallow embedding of [proj2_nps.py].  The program scrapes nps.gov for
    national sites, asks the MapQuest API for places nearby, and memoizes
    remote results in one JSON file, [new_cache.json].

    What the program does to the outside world is made explicit:
    - the cache file is a component of the [world] the functions thread;
    - every [requests.get] is appended to the world's [net_log], and its
      answer is taken from an oracle ([respond]) that sees the history;
    - [print] appends to the world's [stdout];
    - a Python exception is the [Raise] result: the world reached when it
      was raised is kept, as Python keeps the effects that came before.

    Library code the program calls but does not define ([json], [bs4],
    [requests], the [secrets] module) is an interface (a type class).
    Strings are sequences of 8-bit characters, and the [str] methods are
    modelled on their ASCII range. *)

From Stdlib Require Import ZArith Ascii String DecimalPos DecimalZ.
From Stdlib Require Import DecimalNat DecimalString.
From stdpp Require Import base option list strings gmap.

Local Open Scope string_scope.
Local Open Scope list_scope.

(** ** Python values that JSON can carry

    [json.loads] yields [None], booleans, numbers, [str], [list] and [dict]
    with [str] keys.  A [dict] is kept as the list of its items in insertion
    order, which is the order [json.dumps] writes them in.  Numbers are
    integers here: the program never looks inside the numbers it caches. *)
#[warnings="-register-all"]
Inductive value : Type :=
| VNone
| VBool (b : bool)
| VInt (z : Z)
| VStr (s : string)
| VList (l : list value)
| VDict (d : list (string * value)).

Abbreviation dict := (list (string * value)).

(** [d.get(k)]: the value under [k], if any. *)
Fixpoint dict_get (k : string) (d : dict) : option value :=
  match d with
  | [] => None
  | (k', v) :: r => if String.eqb k' k then Some v else dict_get k r
  end.

(** [k in d] for a dict [d]. *)
Definition dict_mem (k : string) (d : dict) : bool :=
  match dict_get k d with Some _ => true | None => false end.

(** [d[k] = v]: an existing key keeps its place, a new one goes last. *)
Fixpoint dict_set (k : string) (v : value) (d : dict) : dict :=
  match d with
  | [] => [(k, v)]
  | (k', v') :: r =>
      if String.eqb k' k then (k', v) :: r else (k', v') :: dict_set k v r
  end.

(** A value Python can really hold: no dict in it has a key twice. *)
Fixpoint wf_value (v : value) : Prop :=
  match v with
  | VList l => foldr (fun x P => wf_value x /\ P) True l
  | VDict d => NoDup d.*1 /\ foldr (fun kv P => wf_value kv.2 /\ P) True d
  | _ => True
  end.

(** ** The [str] methods the program uses (ASCII range) *)
Definition is_upper (c : ascii) : bool :=
  let n := nat_of_ascii c in (65 <=? n)%nat && (n <=? 90)%nat.

Definition is_lower (c : ascii) : bool :=
  let n := nat_of_ascii c in (97 <=? n)%nat && (n <=? 122)%nat.

Definition lower_char (c : ascii) : ascii :=
  if is_upper c then ascii_of_nat (nat_of_ascii c + 32) else c.

Definition upper_char (c : ascii) : ascii :=
  if is_lower c then ascii_of_nat (nat_of_ascii c - 32) else c.

(** [s.lower()] *)
Fixpoint lower (s : string) : string :=
  match s with
  | EmptyString => EmptyString
  | String c r => String (lower_char c) (lower r)
  end.

(** [s.capitalize()]: first character upper-cased, the rest lower-cased. *)
Definition capitalize (s : string) : string :=
  match s with
  | EmptyString => EmptyString
  | String c r => String (upper_char c) (lower r)
  end.

(** The characters [str.strip()] removes: tab, line feed, vertical tab, form
    feed, carriage return, the separators 28..31, and the space. *)
Definition is_whitespace (c : ascii) : bool :=
  let n := nat_of_ascii c in
  ((9 <=? n)%nat && (n <=? 13)%nat) || ((28 <=? n)%nat && (n <=? 32)%nat).

Fixpoint lstrip (s : string) : string :=
  match s with
  | EmptyString => EmptyString
  | String c r => if is_whitespace c then lstrip r else s
  end.

(** [s.strip()] *)
Definition strip (s : string) : string :=
  String.rev (lstrip (String.rev (lstrip s))).

(** [needle in hay] for two strings: [needle] occurs in [hay]. *)
Fixpoint substringb (needle hay : string) : bool :=
  if String.prefix needle hay then true
  else match hay with
       | EmptyString => false
       | String _ r => substringb needle r
       end.

(** ** Exceptions and results *)
Inductive exn : Type :=
| FileNotFoundError
| PermissionError
| JSONDecodeError
| KeyError (k : string)
| TypeError
| AttributeError
| RequestException.

Inductive result (A : Type) : Type :=
| Ok (a : A)
| Raise (e : exn).
Arguments Ok {A} a.
Arguments Raise {A} e.

(** [key in container], for a [str] key and a container read from JSON: key
    membership in a dict, element membership in a list (only an equal [str]
    is equal to a [str]), substring in a [str], and a [TypeError] on what is
    not iterable. *)
Definition py_contains (container : value) (key : string) : result bool :=
  match container with
  | VDict d => Ok (dict_mem key d)
  | VList l =>
      Ok (existsb (fun x => match x with VStr s => String.eqb s key | _ => false end) l)
  | VStr s => Ok (substringb key s)
  | _ => Raise TypeError
  end.

(** [container[key] = v] for a [str] key: only a dict accepts it. *)
Definition py_setitem (container : value) (key : string) (v : value) : result value :=
  match container with
  | VDict d => Ok (VDict (dict_set key v d))
  | _ => Raise TypeError
  end.

(** [container[key]] for a [str] key: [KeyError] on a dict without it,
    [TypeError] on anything else (a list or a str wants an integer). *)
Definition py_getitem (container : value) (key : string) : result value :=
  match container with
  | VDict d =>
      match dict_get key d with
      | Some v => Ok v
      | None => Raise (KeyError key)
      end
  | _ => Raise TypeError
  end.

(** ** The world: the cache file, the network, the terminal *)

(** The state of [new_cache.json] as [open(..., 'r')] and [read()] see it. *)
Inductive file_state : Type :=
| Absent
| Unreadable
| Contents (s : string).

(** The file, and whether [open(..., 'w')] succeeds on it. *)
Record filesystem : Type := mkFs {
  cache_file : file_state;
  writable : bool
}.

(** One [requests.get(url, params)]. *)
Record request : Type := mkRequest {
  req_url : string;
  req_params : list (string * string)
}.

Record world : Type := mkWorld {
  fs : filesystem;
  net_log : list request;
  stdout : list string
}.

Definition set_fs (f : filesystem) (w : world) : world :=
  mkWorld f (net_log w) (stdout w).
Definition log_request (r : request) (w : world) : world :=
  mkWorld (fs w) (net_log w ++ [r]) (stdout w).
Definition emit (line : string) (w : world) : world :=
  mkWorld (fs w) (net_log w) (stdout w ++ [line]).

(** ** The monad of the program: state and exceptions *)
Definition M (A : Type) : Type := world -> result A * world.

Definition ret {A} (a : A) : M A := fun w => (Ok a, w).

Definition bind {A B} (m : M A) (k : A -> M B) : M B :=
  fun w =>
    match m w with
    | (Ok a, w') => k a w'
    | (Raise e, w') => (Raise e, w')
    end.

Definition raise {A} (e : exn) : M A := fun w => (Raise e, w).

(** [try: body except: handler], with Python's bare [except:], which
    catches every exception. *)
Definition try_except {A} (body handler : M A) : M A :=
  fun w =>
    match body w with
    | (Ok a, w') => (Ok a, w')
    | (Raise _, w') => handler w'
    end.

(** A pure computation that may raise. *)
Definition lift {A} (r : result A) : M A := fun w => (r, w).

(** [o] or, when there is nothing, the exception [e]. *)
Definition or_raise {A} (e : exn) (o : option A) : M A :=
  match o with
  | Some a => ret a
  | None => raise e
  end.

Declare Scope py_scope.
Delimit Scope py_scope with py.
Notation "x <- m ;; k" := (bind m (fun x => k))
  (at level 100, m at next level, right associativity) : py_scope.
Notation "m ;;; k" := (bind m (fun _ => k))
  (at level 100, right associativity) : py_scope.
Local Open Scope py_scope.

(** [print(line)] *)
Definition print (line : string) : M unit := fun w => (Ok tt, emit line w).

(** ** Interfaces of the libraries the program calls *)

(** [json.dumps] and [json.loads]; [None] is a [JSONDecodeError]. *)
Class JsonCodec : Type := {
  json_dumps : value -> string;
  json_loads : string -> option value
}.

(** What the [json] module promises on the values Python can hold: a text
    it wrote is read back as the value written, and whatever it reads is
    such a value. *)
Class JsonLaws `{JsonCodec} : Prop := {
  loads_dumps : forall v, wf_value v -> json_loads (json_dumps v) = Some v;
  loads_wf : forall s v, json_loads s = Some v -> wf_value v
}.

(** The remote servers: the body answered to a request, given the requests
    made before it; [None] when [requests.get] raises. *)
Class Network : Type := {
  respond : list request -> request -> option string
}.

(** The [secrets] module, which holds the API key. *)
Class Secrets : Type := {
  API_Key : string
}.

(** The [.text] of the six elements [get_site_instance] finds on a site
    page, before [strip()]. *)
Record site_texts : Type := mkSiteTexts {
  hero_title : string;
  hero_designation : string;
  address_locality : string;
  address_region : string;
  postal_code : string;
  telephone : string
}.

(** An [a] element: its [.text], and its [href] attribute when it has
    one. *)
Record anchor : Type := mkAnchor {
  anchor_text : string;
  anchor_href : option string
}.

(** What [BeautifulSoup] finds in a page, in document order; [None] when
    the element looked for is not there.
    - [state_links]: the menu of states of the index page, and per [li] of
      it what [find("a")] returns;
    - [park_links]: the [list_parks] element of a state page, and per park
      cell of it what [find("a")] returns;
    - [site_fields]: the texts of the elements of a site page, when all of
      them are there. *)
Class HtmlParser : Type := {
  state_links : string -> option (list (option anchor));
  park_links : string -> option (list (option anchor));
  site_fields : string -> option site_texts
}.

(** [a.text] for what [find("a")] returned: [None] has no attribute. *)
Definition text_of (a : option anchor) : result string :=
  match a with
  | Some a => Ok (anchor_text a)
  | None => Raise AttributeError
  end.

(** [a["href"]] for what [find("a")] returned: [None] cannot be
    subscripted, and an anchor may lack the attribute. *)
Definition href_of (a : option anchor) : result string :=
  match a with
  | Some a =>
      match anchor_href a with
      | Some href => Ok href
      | None => Raise (KeyError "href")
      end
  | None => Raise TypeError
  end.

(** ** The program *)

(** [class NationalSite] *)
Record NationalSite : Type := mkNationalSite {
  category : string;
  name : string;
  address : string;
  zipcode : string;
  phone : string
}.

(** [NationalSite.info] *)
Definition info (self : NationalSite) : string :=
  name self +:+ " (" +:+ category self +:+ "): " +:+ address self +:+ " " +:+ zipcode self.

Definition CACHE_FILENAME : string := "new_cache.json".

Section Program.
Context {codec : JsonCodec} {net : Network} {secrets : Secrets}
        {parser : HtmlParser}.

(** [requests.get(url, params)]: the request reaches the network whether or
    not it is answered. *)
Definition requests_get (r : request) : M string :=
  fun w =>
    match respond (net_log w) r with
    | Some body => (Ok body, log_request r w)
    | None => (Raise RequestException, log_request r w)
    end.

(** [open(CACHE_FILENAME, 'r')] and [read()]. *)
Definition read_cache_file : M string :=
  fun w =>
    match cache_file (fs w) with
    | Contents s => (Ok s, w)
    | Absent => (Raise FileNotFoundError, w)
    | Unreadable => (Raise PermissionError, w)
    end.

(** The file after a successful [open(..., 'w')], [write(s)], [close()]:
    writing to a file gives no right to read it. *)
Definition written (s : string) (f : file_state) : file_state :=
  match f with
  | Unreadable => Unreadable
  | _ => Contents s
  end.

(** [open(CACHE_FILENAME, 'w')], [write(s)], [close()]: the prior contents
    are replaced by [s]; when the file cannot be opened it is left as it
    was.  The one failure here is the failure to open.  A [write] or a
    [close] that fails after the open has emptied the file is not in this
    model: [writable] says that the whole write goes through, and what is
    stated of a call that raised is stated of calls that did not raise
    from the file. *)
Definition write_cache_file (s : string) : M unit :=
  fun w =>
    if writable (fs w)
    then (Ok tt, set_fs (mkFs (written s (cache_file (fs w))) true) w)
    else (Raise PermissionError, w).

Definition open_cache : M value :=
  try_except
    (cache_contents <- read_cache_file ;;
     cache_dict <- or_raise JSONDecodeError (json_loads cache_contents) ;;
     ret cache_dict)
    (ret (VDict [])).

Definition save_cache (cache_dict : value) : M unit :=
  let dumped_json_cache := json_dumps cache_dict in
  write_cache_file dumped_json_cache.

(** In the three functions below [CACHE_DICT] is a local variable (there is
    no [global] statement): the module's [CACHE_DICT = {}] is never read. *)
Definition make_request_with_cache (url : string) : M value :=
  CACHE_DICT <- open_cache ;;
  hit <- lift (py_contains CACHE_DICT url) ;;
  CACHE_DICT <-
    (if hit : bool then
       print "Using cache" ;;;
       ret CACHE_DICT
     else
       print "making new request" ;;;
       text <- requests_get (mkRequest url []) ;;
       CACHE_DICT <- lift (py_setitem CACHE_DICT url (VStr text)) ;;
       save_cache CACHE_DICT ;;;
       ret CACHE_DICT) ;;
  lift (py_getitem CACHE_DICT url).

Definition get_url_with_cache (states_dict : gmap string string) (state : string)
  : M value :=
  CACHE_DICT <- open_cache ;;
  hit <- lift (py_contains CACHE_DICT (capitalize state)) ;;
  CACHE_DICT <-
    (if hit : bool then
       print "Using cache" ;;;
       ret CACHE_DICT
     else
       print "making new request" ;;;
       state_url <- or_raise (KeyError state) (states_dict !! state) ;;
       CACHE_DICT <- lift (py_setitem CACHE_DICT (capitalize state) (VStr state_url)) ;;
       save_cache CACHE_DICT ;;;
       ret CACHE_DICT) ;;
  lift (py_getitem CACHE_DICT (capitalize state)).

Definition get_nearby_places (site_object : NationalSite) : M value :=
  let baseurl := "http://www.mapquestapi.com/search/v2/radius" in
  let parameter :=
    [("key", API_Key); ("origin", zipcode site_object); ("radius", "10");
     ("maxMatches", "10"); ("ambiguities", "ignore"); ("outFormat", "json")] in
  resp <- requests_get (mkRequest baseurl parameter) ;;
  print "Fetching" ;;;
  results_object <- or_raise JSONDecodeError (json_loads resp) ;;
  ret results_object.

Definition get_nearby_with_cache (instance : NationalSite) : M value :=
  CACHE_DICT <- open_cache ;;
  hit <- lift (py_contains CACHE_DICT (name instance)) ;;
  CACHE_DICT <-
    (if hit : bool then
       print "Using cache" ;;;
       ret CACHE_DICT
     else
       print "making new request" ;;;
       nearby <- get_nearby_places instance ;;
       CACHE_DICT <- lift (py_setitem CACHE_DICT (name instance) nearby) ;;
       save_cache CACHE_DICT ;;;
       ret CACHE_DICT) ;;
  lift (py_getitem CACHE_DICT (name instance)).

(** [BeautifulSoup(markup, "html.parser")] and [requests.get(url)] are
    given a [str] by the program; what the cache holds under a key may be
    any JSON value, and on another one they are taken to raise. *)
Definition expect_str (v : value) : M string :=
  match v with
  | VStr text => ret text
  | _ => raise TypeError
  end.

(** The body of the loop of [build_state_url_dict], over the [li]s left. *)
Fixpoint state_url_loop (baseurl : string) (states : list (option anchor))
    (state_url_dict : gmap string string) : M (gmap string string) :=
  match states with
  | [] => ret state_url_dict
  | state :: rest =>
      let content := state in
      text <- lift (text_of content) ;;
      let name := strip (lower text) in
      href <- lift (href_of content) ;;
      let url := baseurl +:+ href in
      state_url_loop baseurl rest (<[name := url]> state_url_dict)
  end.

Definition build_state_url_dict : M (gmap string string) :=
  let baseurl := "https://www.nps.gov" in
  let parturl := "https://www.nps.gov/index.htm" in
  text <- make_request_with_cache parturl ;;
  soup <- expect_str text ;;
  states <- or_raise AttributeError (state_links soup) ;;
  state_url_loop baseurl states ∅.

(** The record [get_site_instance] builds from the texts of a page. *)
Definition site_of_texts (t : site_texts) : NationalSite :=
  let name := strip (hero_title t) in
  let category := strip (hero_designation t) in
  let city := strip (address_locality t) in
  let state := strip (address_region t) in
  let zipcode := strip (postal_code t) in
  let phone := strip (telephone t) in
  let address := city +:+ ", " +:+ state in
  mkNationalSite category name address zipcode phone.

Definition get_site_instance (site_url : string) : M NationalSite :=
  text <- make_request_with_cache site_url ;;
  soup <- expect_str text ;;
  texts <- or_raise AttributeError (site_fields soup) ;;
  ret (site_of_texts texts).

(** The loop of [get_sites_for_state], over the parks left: the anchor of a
    park is looked for when its turn comes. *)
Fixpoint park_loop (park_list : list (option anchor)) (park_instance : list NationalSite)
  : M (list NationalSite) :=
  match park_list with
  | [] => ret park_instance
  | park :: rest =>
      let baseurl := "https://www.nps.gov" in
      para <- lift (href_of park) ;;
      let url := baseurl +:+ para in
      instance <- get_site_instance url ;;
      park_loop rest (park_instance ++ [instance])
  end.

Definition get_sites_for_state (state_url : string) : M (list NationalSite) :=
  resp <- requests_get (mkRequest state_url []) ;;
  let text := strip resp in
  park_list <- or_raise AttributeError (park_links text) ;;
  park_loop park_list [].

(** The first half of an iteration of the command loop, for an input other
    than [exit]: [None] stands for the [continue] after the error message.
    [requests.get] wants its URL to be a [str]. *)
Definition sites_of_input (states_dict : gmap string string) (state : string)
  : M (option (list NationalSite)) :=
  if bool_decide (is_Some (states_dict !! lower state)) then
    state_url <- get_url_with_cache states_dict state ;;
    state_url <- expect_str state_url ;;
    sites_list <- get_sites_for_state state_url ;;
    ret (Some sites_list)
  else
    print "[Error]: Enter proper state name" ;;;
    ret None.

End Program.

(** ** The command loop

    The body of [__main__], cut where it reads a line: what it does with a
    state name, what it does with a number, and what it does for the site
    chosen.  Nothing here is used by the functions above. *)

(** [str(x)], which is what an f-string prints for a field [{x}]. *)
Class Formatter : Type := {
  py_str : value -> string
}.

(** [str] of a [str] is that [str]. *)
Class FormatterLaws `{Formatter} : Prop := {
  py_str_VStr : forall s, py_str (VStr s) = s
}.

(** [str(n)] for an [int] that is not negative: its decimal numeral. *)
Definition str_of_nat (n : nat) : string :=
  NilZero.string_of_uint (Nat.to_uint n).

Definition is_digit (c : ascii) : bool :=
  let n := nat_of_ascii c in (48 <=? n)%nat && (n <=? 57)%nat.

Fixpoint all_digits (s : string) : bool :=
  match s with
  | EmptyString => true
  | String c r => is_digit c && all_digits r
  end.

(** [s.isdigit()] on ASCII text: at least one character, and digits
    only.  (Outside ASCII Python has more digits, some of which [int]
    refuses.) *)
Definition isdigit (s : string) : bool :=
  match s with
  | EmptyString => false
  | String _ _ => all_digits s
  end.

Fixpoint int_from (acc : nat) (s : string) : nat :=
  match s with
  | EmptyString => acc
  | String c r => int_from (10 * acc + (nat_of_ascii c - 48)) r
  end.

(** [int(s)], which the loop calls on the strings [isdigit] accepts: the
    number the digits write, leading zeros allowed.  This is [int] on ASCII
    digits within the length [int] takes (4300 digits where the
    interpreter has that limit); beyond it [int] raises. *)
Definition py_int (s : string) : nat := int_from 0 s.

(** What the loop makes of a number typed at the second prompt: the error
    message, a site, or the [IndexError] of [sites_list[int(number)-1]].
    It follows the loop on the lines [isdigit] and [py_int] are right
    about: ASCII text of at most 4300 characters. *)
Inductive selection : Type :=
| Invalid
| Chosen (instance : NationalSite)
| IndexError.

Definition select (sites_list : list NationalSite) (number : string) : selection :=
  if isdigit number then
    if (0 <? py_int number)%nat && (py_int number <? length sites_list + 1)%nat then
      match sites_list !! (py_int number - 1)%nat with
      | Some instance => Chosen instance
      | None => IndexError
      end
    else Invalid
  else Invalid.

(** [x == ""] *)
Definition is_empty_str (x : value) : bool :=
  match x with
  | VStr EmptyString => true
  | _ => false
  end.

(** [x != None] *)
Definition is_not_None (x : value) : bool :=
  match x with
  | VNone => false
  | _ => true
  end.

(** [[result[i] for i in range(len(result))]], each [result[i]] with what
    evaluating it gives: the items of a list, the characters of a str, and
    for a dict a [KeyError] (its keys are strs, the index is an int; the
    exception carries the index as [str] prints it).  [len] raises on what
    has no length. *)
Definition entries_of (result' : value) : result (list (result value)) :=
  match result' with
  | VList l => Ok (Ok <$> l)
  | VStr s => Ok ((fun c => Ok (VStr (String c EmptyString))) <$> list_ascii_of_string s)
  | VDict d => Ok (imap (fun i _ => Raise (KeyError (str_of_nat i))) d)
  | _ => Raise TypeError
  end.

Section CommandLoop.
Context {codec : JsonCodec} {net : Network} {secrets : Secrets}
        {parser : HtmlParser} {formatter : Formatter}.

(** The loop that prints the numbered sites, from index [i] on. *)
Fixpoint sites_listing (i : nat) (sites_list : list NationalSite) : M unit :=
  match sites_list with
  | [] => ret tt
  | site :: rest =>
      print ("[" +:+ str_of_nat (i + 1) +:+ "] " +:+ info site) ;;;
      sites_listing (S i) rest
  end.

(** An iteration of the outer loop, for a line other than [exit], up to the
    second prompt: [None] stands for the [continue] after the error
    message, and [Some sites_list] for the list the second prompt chooses
    from.  The test [sites_list != None] holds of every list. *)
Definition state_step (states_dict : gmap string string) (state : string)
  : M (option (list NationalSite)) :=
  if bool_decide (is_Some (states_dict !! lower state)) then
    state_url <- get_url_with_cache states_dict state ;;
    state_url <- expect_str state_url ;;
    sites_list <- get_sites_for_state state_url ;;
    print "------------------------------------" ;;;
    print ("List of national sites in " +:+ lower state +:+ ":") ;;;
    print "------------------------------------" ;;;
    sites_listing 0 sites_list ;;;
    ret (Some sites_list)
  else
    print "[Error]: Enter proper state name" ;;;
    ret None.

(** The loop that prints the places, over what is left of the entries. *)
Fixpoint places_listing (entries : list (result value)) : M unit :=
  match entries with
  | [] => ret tt
  | entry :: rest =>
      entry <- lift entry ;;
      name <- lift (py_getitem entry "name") ;;
      fields <- lift (py_getitem entry "fields") ;;
      has_address <- lift (py_contains fields "address") ;;
      address <-
        (if has_address : bool then
           address <- lift (py_getitem fields "address") ;;
           ret (if is_empty_str address then VStr "no address" else address)
         else ret (VStr "no address")) ;;
      has_city <- lift (py_contains fields "city") ;;
      city <-
        (if has_city : bool then
           city <- lift (py_getitem fields "city") ;;
           ret (if is_empty_str city then VStr "no city" else city)
         else ret (VStr "no city")) ;;
      has_category <- lift (py_contains fields "group_sic_code_name_ext") ;;
      category <-
        (if has_category : bool then
           category <- lift (py_getitem fields "group_sic_code_name_ext") ;;
           ret (if is_empty_str category then VStr "no category" else category)
         else ret (VStr "no category")) ;;
      print ("- " +:+ py_str name +:+ " (" +:+ py_str category +:+ "): "
             +:+ py_str address +:+ ", " +:+ py_str city) ;;;
      places_listing rest
  end.

(** What the inner loop does for the site a number chose. *)
Definition show_nearby (instance : NationalSite) : M unit :=
  nearby <- get_nearby_with_cache instance ;;
  result' <- lift (py_getitem nearby "searchResults") ;;
  (if is_not_None result' then
     print "---------------------------------" ;;;
     print ("Places near " +:+ name instance) ;;;
     print "---------------------------------"
   else ret tt) ;;;
  entries <- lift (entries_of result') ;;
  places_listing entries.

End CommandLoop.

(** What the listing shows for a field of a place: the default when the
    field is missing or is the empty string. *)
Definition shown `{Formatter} (fields : dict) (key default : string) : string :=
  match dict_get key fields with
  | Some x => if is_empty_str x then default else py_str x
  | None => default
  end.

(** The line of the listing for a place with the given name and fields. *)
Definition place_line `{Formatter} (place_name : value) (fields : dict) : string :=
  "- " +:+ py_str place_name
  +:+ " (" +:+ shown fields "group_sic_code_name_ext" "no category" +:+ "): "
  +:+ shown fields "address" "no address" +:+ ", "
  +:+ shown fields "city" "no city".

(** An entry of the search results that has a name and a dict of fields,
    and its line. *)
Definition place_entry `{Formatter} (entry : value) (line : string) : Prop :=
  exists e place_name fields,
    entry = VDict e
    /\ dict_get "name" e = Some place_name
    /\ dict_get "fields" e = Some (VDict fields)
    /\ line = place_line place_name fields.

(** The line of the listing of sites for the site at index [i]. *)
Definition site_line (i : nat) (site : NationalSite) : string :=
  "[" +:+ str_of_nat (i + 1) +:+ "] " +:+ info site.

(** The world with lines added to the terminal. *)
Definition emit_all (lines : list string) (w : world) : world :=
  mkWorld (fs w) (net_log w) (stdout w ++ lines).

(** ** The vocabulary of the statements *)
Section Vocabulary.
Context {codec : JsonCodec} {net : Network} {secrets : Secrets}
        {parser : HtmlParser}.

(** The store a file stands for: what it parses to, and the empty dict
    when it cannot be read or parsed. *)
Definition cached (f : filesystem) : value :=
  match cache_file f with
  | Contents s =>
      match json_loads s with
      | Some v => v
      | None => VDict []
      end
  | _ => VDict []
  end.

(** The shape [make_request_with_cache], [get_url_with_cache] and
    [get_nearby_with_cache] share: look [key] up in the store read from
    the file and, when it is not there, [fetch], store, save. *)
Definition with_cache (key : string) (fetch : M value) : M value :=
  CACHE_DICT <- open_cache ;;
  hit <- lift (py_contains CACHE_DICT key) ;;
  CACHE_DICT <-
    (if hit : bool then
       print "Using cache" ;;;
       ret CACHE_DICT
     else
       print "making new request" ;;;
       fetched <- fetch ;;
       CACHE_DICT <- lift (py_setitem CACHE_DICT key fetched) ;;
       save_cache CACHE_DICT ;;;
       ret CACHE_DICT) ;;
  lift (py_getitem CACHE_DICT key).

(** What each of the three functions fetches on a miss. *)
Definition fetch_page (url : string) : M value :=
  text <- requests_get (mkRequest url []) ;;
  ret (VStr text).

Definition fetch_state_url (states_dict : gmap string string) (state : string)
  : M value :=
  state_url <- or_raise (KeyError state) (states_dict !! state) ;;
  ret (VStr state_url).

(** The request [get_nearby_places] sends for a site. *)
Definition nearby_request (site_object : NationalSite) : request :=
  mkRequest "http://www.mapquestapi.com/search/v2/radius"
    [("key", API_Key); ("origin", zipcode site_object); ("radius", "10");
     ("maxMatches", "10"); ("ambiguities", "ignore"); ("outFormat", "json")].

(** The record of the site a link of a state page leads to, as the store
    holds the page of that site. *)
Definition site_of_link (store : value) (href : string) (site : NationalSite)
  : Prop :=
  exists text fields,
    py_getitem store ("https://www.nps.gov" +:+ href) = Ok (VStr text)
    /\ site_fields text = Some fields
    /\ site = site_of_texts fields.

(** Every item of [store] is an item of [store'], under the same key. *)
Definition store_le (store store' : value) : Prop :=
  forall k x, py_getitem store k = Ok x -> py_getitem store' k = Ok x.

(** A computation that leaves the requests made before it in the log. *)
Definition appends {A} (m : M A) : Prop :=
  forall w r w', m w = (r, w') -> exists more, net_log w' = net_log w ++ more.

End Vocabulary.

(** The exceptions that come from the cache file. *)
Definition is_file_error (e : exn) : bool :=
  match e with
  | FileNotFoundError | PermissionError => true
  | _ => false
  end.

(** A call that returned, or raised something that is not from the file:
    if it saved at all, the save went through. *)
Definition off_file {A} (r : result A) : Prop :=
  match r with
  | Ok _ => True
  | Raise e => is_file_error e = false
  end.

(** A line of ASCII characters. *)
Fixpoint ascii_only (s : string) : bool :=
  match s with
  | EmptyString => true
  | String c r => (nat_of_ascii c <? 128)%nat && ascii_only r
  end.

(** A computation after which the store still has every item it had. *)
Definition keeps_store `{JsonCodec} {A} (m : M A) : Prop :=
  forall w r w', m w = (r, w') -> store_le (cached (fs w)) (cached (fs w')).

(** ** A concrete JSON codec

    A small printer and reader of JSON texts, in the format [json.dumps]
    writes by default: [", "] and [": "] as separators, and every character
    outside the printable ASCII range escaped.  It instantiates [JsonCodec]
    where a concrete run of the program is evaluated.  The reader accepts
    leading zeros in a number, and code points up to 255 in a [\u] escape. *)
Module MiniJson.

Definition quote : ascii := "034"%char.
Definition backslash : ascii := "092"%char.

Definition chars (s : string) : list ascii := list_ascii_of_string s.

(** *** Printing *)

Fixpoint uint_chars (u : Decimal.uint) : list ascii :=
  match u with
  | Decimal.Nil => []
  | Decimal.D0 u => "0"%char :: uint_chars u
  | Decimal.D1 u => "1"%char :: uint_chars u
  | Decimal.D2 u => "2"%char :: uint_chars u
  | Decimal.D3 u => "3"%char :: uint_chars u
  | Decimal.D4 u => "4"%char :: uint_chars u
  | Decimal.D5 u => "5"%char :: uint_chars u
  | Decimal.D6 u => "6"%char :: uint_chars u
  | Decimal.D7 u => "7"%char :: uint_chars u
  | Decimal.D8 u => "8"%char :: uint_chars u
  | Decimal.D9 u => "9"%char :: uint_chars u
  end.

Definition print_int (z : Z) : list ascii :=
  match Z.to_int z with
  | Decimal.Pos u => uint_chars u
  | Decimal.Neg u => "-"%char :: uint_chars u
  end.

Definition hex_digit (n : nat) : ascii :=
  nth n (chars "0123456789abcdef") "0"%char.

(** One character of a string, as [json.dumps] writes it. *)
Definition escape_char (c : ascii) : list ascii :=
  let n := nat_of_ascii c in
  if Ascii.eqb c quote then [backslash; quote]
  else if Ascii.eqb c backslash then [backslash; backslash]
  else if Ascii.eqb c "010"%char then [backslash; "n"%char]
  else if Ascii.eqb c "013"%char then [backslash; "r"%char]
  else if Ascii.eqb c "009"%char then [backslash; "t"%char]
  else if Ascii.eqb c "008"%char then [backslash; "b"%char]
  else if Ascii.eqb c "012"%char then [backslash; "f"%char]
  else if (32 <=? n)%nat && (n <=? 126)%nat then [c]
  else [backslash; "u"%char; "0"%char; "0"%char;
        hex_digit (n / 16); hex_digit (n mod 16)].

Definition print_str (s : string) : list ascii :=
  quote :: flat_map escape_char (chars s) ++ [quote].

(** [sep.join(parts)] *)
Fixpoint join (sep : list ascii) (parts : list (list ascii)) : list ascii :=
  match parts with
  | [] => []
  | [p] => p
  | p :: ps => p ++ sep ++ join sep ps
  end.

Fixpoint print (v : value) : list ascii :=
  match v with
  | VNone => chars "null"
  | VBool true => chars "true"
  | VBool false => chars "false"
  | VInt z => print_int z
  | VStr s => print_str s
  | VList l => "["%char :: join (chars ", ") (map print l) ++ ["]"%char]
  | VDict d =>
      "{"%char ::
      join (chars ", ") (map (fun '(k, x) => print_str k ++ chars ": " ++ print x) d)
      ++ ["}"%char]
  end.

Definition dumps (v : value) : string := string_of_list_ascii (print v).

(** *** Reading *)

Definition is_ws (c : ascii) : bool :=
  Ascii.eqb c " "%char || Ascii.eqb c "009"%char
  || Ascii.eqb c "010"%char || Ascii.eqb c "013"%char.

Fixpoint skip_ws (s : list ascii) : list ascii :=
  match s with
  | c :: r => if is_ws c then skip_ws r else s
  | [] => []
  end.

(** [s] without its prefix [lit], when it has it. *)
Fixpoint expect (lit s : list ascii) : option (list ascii) :=
  match lit, s with
  | [], _ => Some s
  | a :: lit', b :: s' => if Ascii.eqb a b then expect lit' s' else None
  | _ :: _, [] => None
  end.

Definition digit_of (c : ascii) : option (Decimal.uint -> Decimal.uint) :=
  if Ascii.eqb c "0"%char then Some Decimal.D0
  else if Ascii.eqb c "1"%char then Some Decimal.D1
  else if Ascii.eqb c "2"%char then Some Decimal.D2
  else if Ascii.eqb c "3"%char then Some Decimal.D3
  else if Ascii.eqb c "4"%char then Some Decimal.D4
  else if Ascii.eqb c "5"%char then Some Decimal.D5
  else if Ascii.eqb c "6"%char then Some Decimal.D6
  else if Ascii.eqb c "7"%char then Some Decimal.D7
  else if Ascii.eqb c "8"%char then Some Decimal.D8
  else if Ascii.eqb c "9"%char then Some Decimal.D9
  else None.

(** The longest run of digits [s] starts with, and what follows it. *)
Fixpoint read_digits (s : list ascii) : Decimal.uint * list ascii :=
  match s with
  | [] => (Decimal.Nil, [])
  | c :: r =>
      match digit_of c with
      | Some d => let '(u, rest) := read_digits r in (d u, rest)
      | None => (Decimal.Nil, s)
      end
  end.

(** A number: an optional sign and at least one digit. *)
Definition read_int (s : list ascii) : option (Z * list ascii) :=
  match s with
  | c :: r =>
      if Ascii.eqb c "-"%char then
        match read_digits r with
        | (Decimal.Nil, _) => None
        | (u, rest) => Some (Z.of_int (Decimal.Neg u), rest)
        end
      else
        match read_digits s with
        | (Decimal.Nil, _) => None
        | (u, rest) => Some (Z.of_int (Decimal.Pos u), rest)
        end
  | [] => None
  end.

Definition hex_val (c : ascii) : option nat :=
  let n := nat_of_ascii c in
  if (48 <=? n)%nat && (n <=? 57)%nat then Some (n - 48)
  else if (97 <=? n)%nat && (n <=? 102)%nat then Some (n - 87)
  else if (65 <=? n)%nat && (n <=? 70)%nat then Some (n - 55)
  else None.

(** The character of [ꯍ], when its code is below 256. *)
Definition hex4 (a b c d : ascii) : option ascii :=
  match hex_val a, hex_val b, hex_val c, hex_val d with
  | Some 0, Some 0, Some h, Some l => Some (ascii_of_nat (16 * h + l))
  | _, _, _, _ => None
  end.

(** The character a backslash and [e] stand for. *)
Definition simple_escape (e : ascii) : option ascii :=
  if Ascii.eqb e quote then Some quote
  else if Ascii.eqb e backslash then Some backslash
  else if Ascii.eqb e "/"%char then Some "/"%char
  else if Ascii.eqb e "n"%char then Some "010"%char
  else if Ascii.eqb e "r"%char then Some "013"%char
  else if Ascii.eqb e "t"%char then Some "009"%char
  else if Ascii.eqb e "b"%char then Some "008"%char
  else if Ascii.eqb e "f"%char then Some "012"%char
  else None.

(** The string that ends at the first unescaped quote of [s], and what
    follows that quote. *)
Fixpoint read_str (s : list ascii) : option (list ascii * list ascii) :=
  match s with
  | [] => None
  | c :: r =>
      if Ascii.eqb c quote then Some ([], r)
      else if Ascii.eqb c backslash then
        match r with
        | [] => None
        | e :: r' =>
            if Ascii.eqb e "u"%char then
              match r' with
              | a :: b :: c' :: d :: r'' =>
                  match hex4 a b c' d, read_str r'' with
                  | Some ch, Some (t, rest) => Some (ch :: t, rest)
                  | _, _ => None
                  end
              | _ => None
              end
            else
              match simple_escape e, read_str r' with
              | Some ch, Some (t, rest) => Some (ch :: t, rest)
              | _, _ => None
              end
        end
      else if (nat_of_ascii c <? 32)%nat then None
      else
        match read_str r with
        | Some (t, rest) => Some (c :: t, rest)
        | None => None
        end
  end.

(** A value at the start of [s], and what follows it.  An object keeps the
    first place and the last value of a key that is repeated, as the dict
    [json.loads] builds does. *)
Fixpoint read_value (fuel : nat) (s : list ascii) : option (value * list ascii) :=
  match fuel with
  | 0 => None
  | S fuel =>
      match s with
      | [] => None
      | c :: r =>
          if Ascii.eqb c "n"%char then
            match expect (chars "ull") r with
            | Some rest => Some (VNone, rest)
            | None => None
            end
          else if Ascii.eqb c "t"%char then
            match expect (chars "rue") r with
            | Some rest => Some (VBool true, rest)
            | None => None
            end
          else if Ascii.eqb c "f"%char then
            match expect (chars "alse") r with
            | Some rest => Some (VBool false, rest)
            | None => None
            end
          else if Ascii.eqb c quote then
            match read_str r with
            | Some (t, rest) => Some (VStr (string_of_list_ascii t), rest)
            | None => None
            end
          else if Ascii.eqb c "["%char then
            match skip_ws r with
            | c' :: r' =>
                if Ascii.eqb c' "]"%char then Some (VList [], r')
                else read_elements fuel [] (c' :: r')
            | [] => None
            end
          else if Ascii.eqb c "{"%char then
            match skip_ws r with
            | c' :: r' =>
                if Ascii.eqb c' "}"%char then Some (VDict [], r')
                else read_members fuel [] (c' :: r')
            | [] => None
            end
          else
            match read_int s with
            | Some (z, rest) => Some (VInt z, rest)
            | None => None
            end
      end
  end
with read_elements (fuel : nat) (acc : list value) (s : list ascii)
  : option (value * list ascii) :=
  match fuel with
  | 0 => None
  | S fuel =>
      match read_value fuel s with
      | Some (x, r) =>
          match skip_ws r with
          | c :: r' =>
              if Ascii.eqb c ","%char then read_elements fuel (acc ++ [x]) (skip_ws r')
              else if Ascii.eqb c "]"%char then Some (VList (acc ++ [x]), r')
              else None
          | [] => None
          end
      | None => None
      end
  end
with read_members (fuel : nat) (acc : list (string * value)) (s : list ascii)
  : option (value * list ascii) :=
  match fuel with
  | 0 => None
  | S fuel =>
      match s with
      | c :: r =>
          if Ascii.eqb c quote then
            match read_str r with
            | Some (k, r1) =>
                match skip_ws r1 with
                | c1 :: r2 =>
                    if Ascii.eqb c1 ":"%char then
                      match read_value fuel (skip_ws r2) with
                      | Some (x, r3) =>
                          let acc' := dict_set (string_of_list_ascii k) x acc in
                          match skip_ws r3 with
                          | c3 :: r4 =>
                              if Ascii.eqb c3 ","%char
                              then read_members fuel acc' (skip_ws r4)
                              else if Ascii.eqb c3 "}"%char then Some (VDict acc', r4)
                              else None
                          | [] => None
                          end
                      | None => None
                      end
                    else None
                | [] => None
                end
            | None => None
            end
          else None
      | [] => None
      end
  end.

(** The value a text denotes: one value, with blanks around it at most. *)
Definition loads (s : string) : option value :=
  let text := chars s in
  match read_value (S (length text)) (skip_ws text) with
  | Some (v, rest) =>
      match skip_ws rest with
      | [] => Some v
      | _ :: _ => None
      end
  | None => None
  end.

(** *** The vocabulary of the round trip *)

(** The separator of the items of a list or a dict. *)
Definition sep : list ascii := chars ", ".


(** One item of a dict, as printed. *)
Definition print_member (kx : string * value) : list ascii :=
  let '(k, x) := kx in print_str k ++ chars ": " ++ print x.

(** What may follow a value inside a text: nothing, or a separator or a
    closing bracket. *)
Definition follow (rest : list ascii) : bool :=
  match rest with
  | [] => true
  | c :: _ => Ascii.eqb c ","%char || Ascii.eqb c "]"%char || Ascii.eqb c "}"%char
  end.

(** The first character of a printed value: it starts no blank and closes
    no bracket, and a reader that sees it knows which value follows. *)
Definition starts_value (c : ascii) : bool :=
  negb (is_ws c) && negb (Ascii.eqb c "]"%char) && negb (Ascii.eqb c "}"%char).

(** What the reader is to do on the printed form of a value: read it back,
    and stop where it ends. *)
Definition reads_back (x : value) : Prop :=
  forall f rest,
    length (print x) < f -> follow rest = true ->
    read_value f (print x ++ rest) = Some (x, rest).

#[export] Instance codec : JsonCodec := {|
  json_dumps := dumps;
  json_loads := loads
|}.

End MiniJson.


(** ** A concrete world

    A small instance of the interfaces, on which the program can be run:
    a server that answers every request, a parser that finds two parks on
    the page of Michigan, and some states of the cache file. *)
Module Scenario.

Definition michigan_url : string := "https://www.nps.gov/state/mi/index.htm".

Definition api_url : string := "http://www.mapquestapi.com/search/v2/radius".

(** The answer of the API: no place nearby. *)
Definition no_results : value := VDict [("searchResults", VList [])].

(** The server: the API answers [no_results] as JSON, and every other
    address answers a page that carries the address. *)
Definition net : Network := {|
  respond := fun _ r =>
    if String.eqb (req_url r) api_url then Some (MiniJson.dumps no_results)
    else Some ("<html>" +:+ req_url r +:+ "</html>")
|}.

(** A network that answers nothing. *)
Definition offline : Network := {| respond := fun _ _ => None |}.

(** A server that answers a page to every request, the API's included. *)
Definition html_only : Network := {|
  respond := fun _ r => Some ("<html>" +:+ req_url r +:+ "</html>")
|}.

Definition secrets : Secrets := {| API_Key := "KEY" |}.

Definition parser : HtmlParser := {|
  state_links := fun _ =>
    Some [Some (mkAnchor " Michigan" (Some "/state/mi/index.htm"));
          Some (mkAnchor "Ohio " (Some "/state/oh/index.htm"))];
  park_links := fun text =>
    if String.eqb text ("<html>" +:+ michigan_url +:+ "</html>")
    then Some [Some (mkAnchor "Isle Royale" (Some "/isro/index.htm"));
               Some (mkAnchor "Keweenaw" (Some "/kewe/index.htm"))]
    else Some [];
  site_fields := fun text =>
    Some (mkSiteTexts text " National Park " "Houghton" "MI" "49931"
            "(906) 482-0984")
|}.

(** No cache file yet, in a directory where one can be created. *)
Definition fresh : world := mkWorld (mkFs Absent true) [] [].

(** A cache file that holds the given store. *)
Definition holding (store : value) : world :=
  mkWorld (mkFs (Contents (MiniJson.dumps store)) true) [] [].

(** A cache file that holds the given text. *)
Definition with_text (text : string) : world :=
  mkWorld (mkFs (Contents text) true) [] [].

(** A cache file the program may write and not read. *)
Definition write_only : world := mkWorld (mkFs Unreadable true) [] [].

Definition yellowstone : NationalSite :=
  mkNationalSite "National Park" "Yellowstone" "Yellowstone National Park, WY"
    "82190-0168" "307-344-7381".

Definition catalog : gmap string string := {["michigan" := michigan_url]}.

(** The world after [get_sites_for_state michigan_url] ran on [fresh]. *)
Definition after_michigan : world :=
  Eval vm_compute in
    snd (get_sites_for_state (codec := MiniJson.codec) (net := net)
           (parser := parser) michigan_url fresh).

(** The records that run returned. *)
Definition michigan_sites : list NationalSite :=
  Eval vm_compute in
    match fst (get_sites_for_state (codec := MiniJson.codec) (net := net)
                 (parser := parser) michigan_url fresh) with
    | Ok sites => sites
    | Raise _ => []
    end.

End Scenario.

(** More of the concrete world, for the command loop and for the ways a
    run can go wrong. *)
Module LoopScenario.
Import Scenario.

(** A [str] that leaves a [str] as it is, and writes any other value as
    JSON. *)
Definition formatter : Formatter := {|
  py_str := fun x =>
    match x with
    | VStr s => s
    | _ => MiniJson.dumps x
    end
|}.

(** An answer of the API that reports an error. *)
Definition error_answer : dict := [("info", VDict [("statuscode", VInt 400)])].

(** A server whose API answers the error. *)
Definition api_error : Network := {|
  respond := fun _ _ => Some (MiniJson.dumps (VDict error_answer))
|}.

(** Two places: one with an address and an empty city, one with a
    category only. *)
Definition cafe : value :=
  VDict [("name", VStr "Cafe");
         ("fields", VDict [("address", VStr "1 Main St"); ("city", VStr "")])].

Definition garage : value :=
  VDict [("name", VStr "Garage");
         ("fields", VDict [("group_sic_code_name_ext", VStr "Auto Repair")])].

Definition two_places : dict := [("searchResults", VList [cafe; garage])].

(** A cache file that holds an empty object and cannot be written. *)
Definition read_only : world := mkWorld (mkFs (Contents "{}") false) [] [].

(** The catalog index the parser of [Scenario] gives. *)
Definition index : gmap string string :=
  <["ohio" := "https://www.nps.gov/state/oh/index.htm"]>
    (<["michigan" := "https://www.nps.gov/state/mi/index.htm"]> ∅).

(** The world after [build_state_url_dict] ran on [fresh]. *)
Definition after_index : world :=
  Eval vm_compute in
    snd (build_state_url_dict (codec := MiniJson.codec) (net := net)
           (parser := parser) fresh).

Definition two_sites : list NationalSite :=
  [yellowstone;
   mkNationalSite "National Park" "Isle Royale" "Houghton, MI" "49931"
     "(906) 482-0984"].

End LoopScenario.

(** * Facts about the model *)

(** ** Dicts *)

Lemma dict_get_None (k : string) (d : dict) :
  dict_get k d = None <-> k ∉ d.*1.
Proof.
  induction d as [|[k' v] d IH]; simpl.
  - split; [intros _; apply not_elem_of_nil | done].
  - destruct (String.eqb_spec k' k) as [->|Hne].
    + split; [done | intros Hn; exfalso; apply Hn; left].
    + rewrite IH, not_elem_of_cons. intuition congruence.
Qed.

Lemma dict_mem_true (k : string) (d : dict) :
  dict_mem k d = true <-> exists v, dict_get k d = Some v.
Proof.
  unfold dict_mem. destruct (dict_get k d) as [v|].
  - split; [by exists v | done].
  - split; [done | by intros [v ?]].
Qed.

Lemma dict_mem_false (k : string) (d : dict) :
  dict_mem k d = false <-> dict_get k d = None.
Proof.
  unfold dict_mem. by destruct (dict_get k d).
Qed.

(** Assigning to a key the dict lacks appends the item. *)
Lemma dict_set_fresh (k : string) (v : value) (d : dict) :
  dict_get k d = None -> dict_set k v d = d ++ [(k, v)].
Proof.
  induction d as [|[k' v'] d IH]; simpl; [done|].
  destruct (String.eqb k' k); [done|].
  intros Hd. by rewrite IH.
Qed.

Lemma dict_get_set_eq (k : string) (v : value) (d : dict) :
  dict_get k (dict_set k v d) = Some v.
Proof.
  induction d as [|[k' v'] d IH]; simpl.
  - by rewrite String.eqb_refl.
  - destruct (String.eqb k' k) eqn:E; simpl; by rewrite E.
Qed.

Lemma dict_get_set_ne (k k0 : string) (v : value) (d : dict) :
  k <> k0 -> dict_get k0 (dict_set k v d) = dict_get k0 d.
Proof.
  intros Hne. induction d as [|[k' v'] d IH]; simpl.
  - destruct (String.eqb_spec k k0); [done | reflexivity].
  - destruct (String.eqb_spec k' k) as [->|]; simpl.
    + destruct (String.eqb_spec k k0); [done | reflexivity].
    + destruct (String.eqb k' k0); [reflexivity | apply IH].
Qed.

(** Assignment keeps the keys, or adds the new one at the end. *)
Lemma dict_set_keys (k : string) (v : value) (d : dict) :
  (dict_set k v d).*1 = if dict_mem k d then d.*1 else d.*1 ++ [k].
Proof.
  unfold dict_mem. induction d as [|[k' v'] d IH]; [done|].
  cbn [dict_set dict_get]. destruct (String.eqb k' k); [done|].
  rewrite fmap_cons, IH. by destruct (dict_get k d).
Qed.

(** ** Values Python can hold *)

Lemma wf_VList (l : list value) : wf_value (VList l) <-> Forall wf_value l.
Proof.
  simpl. induction l as [|x l IH]; simpl.
  - split; [constructor | done].
  - rewrite Forall_cons, IH. done.
Qed.

Lemma wf_VDict (d : dict) :
  wf_value (VDict d) <-> NoDup d.*1 /\ Forall (fun kv => wf_value kv.2) d.
Proof.
  simpl. apply and_iff_compat_l.
  induction d as [|x l IH]; simpl.
  - split; [constructor | done].
  - rewrite Forall_cons, IH. done.
Qed.

Lemma wf_dict_set (k : string) (v : value) (d : dict) :
  wf_value (VDict d) -> wf_value v -> wf_value (VDict (dict_set k v d)).
Proof.
  rewrite !wf_VDict. intros [Hnd Hall] Hv. split.
  - rewrite dict_set_keys. destruct (dict_mem k d) eqn:E; [done|].
    apply NoDup_app. split_and!; [done | | apply NoDup_singleton].
    intros x Hx ->%list_elem_of_singleton.
    by apply dict_mem_false, dict_get_None in E.
  - clear Hnd. induction d as [|[k' v'] d IH]; simpl.
    + by constructor.
    + apply Forall_cons in Hall as [H1 H2].
      destruct (String.eqb k' k); constructor; auto.
Qed.

(** An induction principle that reaches the values inside lists and
    dicts. *)
Lemma value_rect_nested (P : value -> Prop) :
  P VNone ->
  (forall b, P (VBool b)) ->
  (forall z, P (VInt z)) ->
  (forall s, P (VStr s)) ->
  (forall l, Forall P l -> P (VList l)) ->
  (forall d, Forall (fun kv => P kv.2) d -> P (VDict d)) ->
  forall v, P v.
Proof.
  intros HN HB HI HS HL HD.
  fix IH 1. intros [| b | z | s | l | d].
  - exact HN.
  - apply HB.
  - apply HI.
  - apply HS.
  - apply HL. induction l as [|x l IHl]; constructor; [apply IH | exact IHl].
  - apply HD. induction d as [|[k x] d IHd]; constructor; [apply IH | exact IHd].
Qed.

(** ** The concrete codec reads back what it prints *)
Module MiniJsonFacts.
Import MiniJson.

Ltac each_ascii c :=
  destruct c as [[] [] [] [] [] [] [] []].

Lemma read_str_escape_char (c : ascii) (r : list ascii) :
  read_str (escape_char c ++ r) =
  match read_str r with
  | Some (t, rest) => Some (c :: t, rest)
  | None => None
  end.
Proof. each_ascii c; reflexivity. Qed.

Lemma read_str_escaped (t r : list ascii) :
  read_str (flat_map escape_char t ++ quote :: r) = Some (t, r).
Proof.
  induction t as [|c t IH]; [reflexivity|].
  cbn [flat_map]. rewrite <- app_assoc, read_str_escape_char, IH. reflexivity.
Qed.

Lemma follow_not_digit (c : ascii) (r : list ascii) :
  follow (c :: r) = true -> digit_of c = None.
Proof. each_ascii c; simpl; intros Hf; first [reflexivity | discriminate Hf]. Qed.

Lemma follow_skip_ws (r : list ascii) : follow r = true -> skip_ws r = r.
Proof.
  destruct r as [|c r]; [reflexivity|].
  each_ascii c; simpl; intros Hf; first [reflexivity | discriminate Hf].
Qed.

Lemma read_digits_uint_chars (u : Decimal.uint) (r : list ascii) :
  follow r = true -> read_digits (uint_chars u ++ r) = (u, r).
Proof.
  intros Hr.
  induction u as [|u IHu|u IHu|u IHu|u IHu|u IHu|u IHu|u IHu|u IHu|u IHu|u IHu];
    cbn [uint_chars app];
    try (cbn [read_digits]; rewrite IHu; reflexivity).
  destruct r as [|c r]; [reflexivity|].
  cbn [read_digits]. by rewrite (follow_not_digit c r).
Qed.

Lemma uint_chars_head (u : Decimal.uint) :
  u <> Decimal.Nil ->
  exists c t, uint_chars u = c :: t /\ starts_value c = true
              /\ Ascii.eqb c "-"%char = false /\ digit_of c <> None.
Proof.
  intros Hu. destruct u; [done | ..]; by eexists _, _.
Qed.

Lemma read_int_print (z : Z) (r : list ascii) :
  follow r = true -> read_int (print_int z ++ r) = Some (z, r).
Proof.
  intros Hr. unfold print_int.
  rewrite <- (DecimalZ.of_to z) at 2.
  destruct (Z.to_int z) as [u|u] eqn:Ez.
  - assert (u <> Decimal.Nil) as Hu.
    { destruct z; simpl in Ez; inversion Ez; subst; try done;
        apply DecimalPos.Unsigned.to_uint_nonnil. }
    destruct (uint_chars_head u Hu) as (c & t & Hc & _ & Hm & _).
    pose proof (read_digits_uint_chars u r Hr) as Hd.
    rewrite Hc in *. cbn [app read_int]. rewrite Hm.
    cbn [app] in Hd. rewrite Hd. by destruct u.
  - assert (u <> Decimal.Nil) as Hu.
    { destruct z; simpl in Ez; inversion Ez; subst;
        apply DecimalPos.Unsigned.to_uint_nonnil. }
    cbn [app read_int]. rewrite Ascii.eqb_refl.
    rewrite (read_digits_uint_chars u r Hr). by destruct u.
Qed.

Lemma print_int_head (z : Z) :
  exists c t, print_int z = c :: t /\ starts_value c = true
              /\ (Ascii.eqb c "-"%char = true \/ digit_of c <> None).
Proof.
  unfold print_int. destruct (Z.to_int z) as [u|u] eqn:Ez.
  - assert (u <> Decimal.Nil) as Hu.
    { destruct z; simpl in Ez; inversion Ez; subst; try done;
        apply DecimalPos.Unsigned.to_uint_nonnil. }
    destruct (uint_chars_head u Hu) as (c & t & Hc & Hs & _ & Hd).
    exists c, t. auto.
  - eexists _, _. split_and!; [reflexivity | reflexivity | by left].
Qed.

(** On a digit or a minus sign, [read_value] reads a number. *)
Lemma read_value_int (f : nat) (c : ascii) (r : list ascii) :
  Ascii.eqb c "-"%char = true \/ digit_of c <> None ->
  read_value (S f) (c :: r) =
  match read_int (c :: r) with
  | Some (z, rest) => Some (VInt z, rest)
  | None => None
  end.
Proof.
  each_ascii c; intros [Hc|Hc]; first [reflexivity | discriminate Hc | done].
Qed.

Lemma print_head (v : value) :
  exists c t, print v = c :: t /\ starts_value c = true.
Proof.
  destruct v as [| [] | z | s | l | d]; try (by eexists _, _).
  destruct (print_int_head z) as (c & t & Hc & Hs & _). by exists c, t.
Qed.

Lemma skip_ws_print (v : value) (r : list ascii) :
  skip_ws (print v ++ r) = print v ++ r.
Proof.
  destruct (print_head v) as (c & t & -> & Hs). cbn [app skip_ws].
  unfold starts_value in Hs. by destruct (is_ws c).
Qed.

Lemma print_not_closing (v : value) (r : list ascii) :
  exists c t, print v ++ r = c :: t
              /\ Ascii.eqb c "]"%char = false /\ Ascii.eqb c "}"%char = false.
Proof.
  destruct (print_head v) as (c & t & -> & Hs). exists c, (t ++ r).
  unfold starts_value in Hs.
  destruct (is_ws c), (Ascii.eqb c "]"), (Ascii.eqb c "}"); done.
Qed.

Lemma sep_app (r : list ascii) : sep ++ r = ","%char :: " "%char :: r.
Proof. reflexivity. Qed.

Lemma read_elements_print (l : list value) :
  Forall reads_back l -> l <> [] ->
  forall f acc rest,
    length (join sep (map print l)) + 1 < f ->
    read_elements f acc (join sep (map print l) ++ "]"%char :: rest)
    = Some (VList (acc ++ l), rest).
Proof.
  induction l as [|x l IH]; [done|].
  intros [Hx Hl]%Forall_cons _ f acc rest Hf.
  destruct f as [|f]; [lia|]. cbn [read_elements].
  destruct l as [|y l].
  - cbn [map join] in *. rewrite Hx by (done || lia). reflexivity.
  - change (join sep (map print (x :: y :: l)))
      with (print x ++ sep ++ join sep (map print (y :: l))) in *.
    rewrite length_app, length_app in Hf. change (length sep) with 2 in Hf.
    rewrite <- !app_assoc. rewrite Hx by (done || lia).
    rewrite sep_app. cbn [skip_ws is_ws Ascii.eqb Bool.eqb orb].
    assert (skip_ws (join sep (map print (y :: l)) ++ "]"%char :: rest)
            = join sep (map print (y :: l)) ++ "]"%char :: rest) as ->.
    { destruct l; cbn [map join]; rewrite <- ?app_assoc; apply skip_ws_print. }
    rewrite IH by (done || lia). by rewrite <- app_assoc.
Qed.

Lemma print_member_head (kx : string * value) (r : list ascii) :
  exists t, print_member kx ++ r = quote :: t.
Proof. destruct kx as [k x]. by eexists. Qed.

Lemma read_members_print (d : dict) :
  Forall (fun kx => reads_back kx.2) d -> d <> [] ->
  forall f acc rest,
    NoDup (acc ++ d).*1 ->
    length (join sep (map print_member d)) + 1 < f ->
    read_members f acc (join sep (map print_member d) ++ "}"%char :: rest)
    = Some (VDict (acc ++ d), rest).
Proof.
  induction d as [|[k x] d IH]; [done|].
  intros [Hx Hd]%Forall_cons _ f acc rest Hnd Hf. simpl in Hx.
  destruct f as [|f]; [lia|].
  assert (dict_set k x acc = acc ++ [(k, x)]) as Hset.
  { apply dict_set_fresh, dict_get_None.
    rewrite fmap_app, fmap_cons in Hnd. apply NoDup_app in Hnd as (_ & Hnd & _).
    intros Hk. apply (Hnd k Hk). left. }
  assert (forall tail, follow tail = true ->
    length (print_member (k, x)) < f ->
    read_members (S f) acc (print_member (k, x) ++ tail) =
    match skip_ws tail with
    | c3 :: r4 =>
        if Ascii.eqb c3 ","%char
        then read_members f (acc ++ [(k, x)]) (skip_ws r4)
        else if Ascii.eqb c3 "}"%char then Some (VDict (acc ++ [(k, x)]), r4)
        else None
    | [] => None
    end) as Hstep.
  { intros tail Htail Hlen. unfold print_member, print_str in *.
    rewrite !length_app in Hlen. cbn [length] in Hlen.
    cbn [read_members app]. rewrite Ascii.eqb_refl.
    rewrite <- !app_assoc. cbn [app].
    rewrite read_str_escaped.
    cbn [chars list_ascii_of_string app skip_ws is_ws Ascii.eqb Bool.eqb orb].
    rewrite skip_ws_print, Hx by (done || lia).
    unfold chars. by rewrite string_of_list_ascii_of_string, Hset. }
  destruct d as [|ky d].
  - cbn [map join] in *. rewrite Hstep by (done || lia).
    cbn [skip_ws is_ws Ascii.eqb Bool.eqb orb]. reflexivity.
  - change (join sep (map print_member ((k, x) :: ky :: d)))
      with (print_member (k, x) ++ sep ++ join sep (map print_member (ky :: d))) in *.
    rewrite length_app, length_app in Hf. change (length sep) with 2 in Hf.
    rewrite <- !app_assoc. rewrite Hstep by (done || lia).
    rewrite sep_app. cbn [skip_ws is_ws Ascii.eqb Bool.eqb orb].
    assert (skip_ws (join sep (map print_member (ky :: d)) ++ "}"%char :: rest)
            = join sep (map print_member (ky :: d)) ++ "}"%char :: rest) as ->.
    { destruct (print_member_head ky
        (match d with [] => [] | _ => sep ++ join sep (map print_member d) end
         ++ "}"%char :: rest)) as [t Ht].
      replace (join sep (map print_member (ky :: d)) ++ "}"%char :: rest)
        with (quote :: t); [reflexivity|].
      rewrite <- Ht. destruct d; cbn [map join]; by rewrite <- ?app_assoc. }
    rewrite IH; [by rewrite <- app_assoc | done | done | | lia].
    by rewrite <- app_assoc.
Qed.

Lemma print_VDict (d : dict) :
  print (VDict d) = "{"%char :: join sep (map print_member d) ++ ["}"%char].
Proof.
  reflexivity.
Qed.

Lemma read_print (v : value) : wf_value v -> reads_back v.
Proof.
  induction v as [| b | z | s | l IH | d IH] using value_rect_nested;
    intros Hwf f rest Hf Hrest; (destruct f as [|f]; [lia|]).
  - reflexivity.
  - by destruct b.
  - destruct (print_int_head z) as (c & t & Hc & _ & Hd).
    cbn [print]. pose proof (read_int_print z rest Hrest) as Hz.
    rewrite Hc in *. cbn [app] in *. rewrite read_value_int by done.
    by rewrite Hz.
  - cbn [print print_str app]. rewrite <- app_assoc. cbn [read_value app].
    change (Ascii.eqb quote "n") with false. change (Ascii.eqb quote "t") with false.
    change (Ascii.eqb quote "f") with false. rewrite Ascii.eqb_refl.
    rewrite read_str_escaped. unfold chars.
    by rewrite string_of_list_ascii_of_string.
  - apply wf_VList in Hwf.
    assert (Forall reads_back l) as Hl.
    { apply Forall_forall. intros x Hx.
      apply (proj1 (Forall_forall _ _) IH x Hx), (proj1 (Forall_forall _ _) Hwf x Hx). }
    cbn [print] in *. fold sep in *. cbn [length] in Hf. rewrite length_app in Hf.
    cbn [length] in Hf. cbn [app read_value Ascii.eqb Bool.eqb].
    rewrite <- app_assoc. cbn [app].
    destruct l as [|x l]; [reflexivity|].
    assert (exists c t, join sep (map print (x :: l)) ++ "]"%char :: rest = c :: t
              /\ is_ws c = false /\ Ascii.eqb c "]"%char = false)
      as (c & t & Hj & Hws & Hc).
    { destruct (print_head x) as (c & t & Hp & Hs).
      exists c, (t ++ match l with [] => [] | _ => sep ++ join sep (map print l) end
                    ++ "]"%char :: rest).
      split.
      - destruct l; cbn [map join]; rewrite Hp, <- ?app_assoc; reflexivity.
      - unfold starts_value in Hs.
        destruct (is_ws c), (Ascii.eqb c "]"); done. }
    rewrite Hj. cbn [skip_ws]. rewrite Hws, Hc, <- Hj.
    rewrite read_elements_print by (done || lia). reflexivity.
  - apply wf_VDict in Hwf as [Hnd Hwf].
    assert (Forall (fun kx => reads_back kx.2) d) as Hd.
    { apply Forall_forall. intros x Hx.
      apply (proj1 (Forall_forall _ _) IH x Hx), (proj1 (Forall_forall _ _) Hwf x Hx). }
    rewrite print_VDict in *. cbn [length] in Hf. rewrite length_app in Hf.
    cbn [length] in Hf. cbn [app read_value Ascii.eqb Bool.eqb].
    rewrite <- app_assoc. cbn [app].
    destruct d as [|kx d]; [reflexivity|].
    destruct (print_member_head kx
      (match d with [] => [] | _ => sep ++ join sep (map print_member d) end
       ++ "}"%char :: rest)) as [t Ht].
    assert (join sep (map print_member (kx :: d)) ++ "}"%char :: rest = quote :: t)
      as Hj.
    { rewrite <- Ht. destruct d; cbn [map join]; by rewrite <- ?app_assoc. }
    rewrite Hj. cbn [skip_ws is_ws quote Ascii.eqb Bool.eqb orb]. fold quote.
    rewrite <- Hj. rewrite read_members_print by (done || lia). reflexivity.
Qed.

(** A text the codec wrote is read back as the value written. *)
Lemma loads_dumps_wf (v : value) : wf_value v -> loads (dumps v) = Some v.
Proof.
  intros Hwf. unfold loads, dumps, chars.
  rewrite list_ascii_of_string_of_list_ascii.
  rewrite <- (app_nil_r (print v)) at 2. rewrite skip_ws_print.
  rewrite read_print; [reflexivity | done | lia | done].
Qed.

(** Whatever the reader returns, no dict in it has a key twice. *)
Lemma read_wf (f : nat) :
  (forall s v r, read_value f s = Some (v, r) -> wf_value v)
  /\ (forall acc s v r,
        Forall wf_value acc -> read_elements f acc s = Some (v, r) -> wf_value v)
  /\ (forall acc s v r,
        wf_value (VDict acc) -> read_members f acc s = Some (v, r) -> wf_value v).
Proof.
  induction f as [|f (IHv & IHe & IHm)]; [by split_and!|].
  split_and!.
  - intros s v r Hr. cbn [read_value] in Hr.
    repeat case_match; simplify_eq; try done.
    + eapply IHe; [|eassumption]. constructor.
    + apply wf_VDict. split; constructor.
    + eapply IHm; [|eassumption]. apply wf_VDict. split; constructor.
  - intros acc s v r Hacc Hr. cbn [read_elements] in Hr.
    repeat case_match; simplify_eq.
    + eapply IHe; [|eassumption]. apply Forall_app. split; [done|].
      constructor; [|constructor]. eapply IHv; eassumption.
    + apply wf_VList, Forall_app. split; [done|].
      constructor; [|constructor]. eapply IHv; eassumption.
  - intros acc s v r Hacc Hr. cbn [read_members] in Hr.
    repeat case_match; simplify_eq.
    + eapply IHm; [|eassumption]. apply wf_dict_set; [done|].
      eapply IHv; eassumption.
    + apply wf_dict_set; [done|]. eapply IHv; eassumption.
Qed.

Lemma loads_wf_value (s : string) (v : value) : loads s = Some v -> wf_value v.
Proof.
  unfold loads. intros Hl. repeat case_match; simplify_eq.
  eapply (proj1 (read_wf _)); eassumption.
Qed.

#[export] Instance laws : JsonLaws := {|
  loads_dumps := loads_dumps_wf;
  loads_wf := loads_wf_value
|}.

End MiniJsonFacts.

(** ** The cache layer *)
Section CacheFacts.
Context `{JsonCodec} `{!JsonLaws} `{Network} `{Secrets} `{HtmlParser}.

Lemma open_cache_cached (w : world) : open_cache w = (Ok (cached (fs w)), w).
Proof.
  unfold open_cache, try_except, bind, read_cache_file, cached.
  destruct (cache_file (fs w)) as [| |s]; try reflexivity.
  by destruct (json_loads s).
Qed.

Lemma open_cache_inv (w w' : world) (v : value) :
  open_cache w = (Ok v, w') -> cached (fs w) = v /\ w' = w.
Proof. rewrite open_cache_cached. by intros [= <- <-]. Qed.

Lemma wf_cached (f : filesystem) : wf_value (cached f).
Proof.
  unfold cached. destruct (cache_file f) as [| |s]; try (split; constructor).
  destruct (json_loads s) as [v|] eqn:E; [by eapply loads_wf | split; constructor].
Qed.

(** After a successful write to a file that can be read, the store is the
    value written. *)
Lemma cached_written (f : filesystem) (v : value) :
  cache_file f <> Unreadable -> wf_value v ->
  cached (mkFs (written (json_dumps v) (cache_file f)) true) = v.
Proof.
  intros Hr Hwf. unfold cached, written. simpl.
  destruct (cache_file f); try done; by rewrite loads_dumps.
Qed.

Lemma make_request_with_cache_shape (url : string) (w : world) :
  make_request_with_cache url w = with_cache url (fetch_page url) w.
Proof.
  unfold make_request_with_cache, with_cache, fetch_page, bind.
  rewrite open_cache_cached.
  destruct (lift _ w) as [[[]|e] w1]; try reflexivity.
  destruct (print _ w1) as [[[]|e] w2]; try reflexivity.
  destruct (requests_get _ w2) as [[text|e] w3]; reflexivity.
Qed.

Lemma get_url_with_cache_shape (states_dict : gmap string string)
    (state : string) (w : world) :
  get_url_with_cache states_dict state w
  = with_cache (capitalize state) (fetch_state_url states_dict state) w.
Proof.
  unfold get_url_with_cache, with_cache, fetch_state_url, bind.
  rewrite open_cache_cached.
  destruct (lift _ w) as [[[]|e] w1]; try reflexivity.
  destruct (print _ w1) as [[[]|e] w2]; try reflexivity.
  destruct (or_raise _ _ w2) as [[u|e] w3]; reflexivity.
Qed.

Lemma get_nearby_with_cache_shape (instance : NationalSite) (w : world) :
  get_nearby_with_cache instance w
  = with_cache (name instance) (get_nearby_places instance) w.
Proof. reflexivity. Qed.

(** A hit: the value under the key is returned, and nothing else happens
    but the message. *)
Lemma with_cache_hit (key : string) (fetch : M value) (w : world)
    (d : dict) (v : value) :
  cached (fs w) = VDict d -> dict_get key d = Some v ->
  with_cache key fetch w = (Ok v, emit "Using cache" w).
Proof.
  intros Hc Hk. unfold with_cache, bind. rewrite open_cache_cached, Hc.
  unfold lift, py_contains, dict_mem. rewrite Hk. simpl. by rewrite Hk.
Qed.

(** A miss on which the fetch succeeds and the file can be written: the
    fetched value is returned, and the file holds the store with the new
    item at its end. *)
Lemma with_cache_miss (key : string) (fetch : M value) (w w1 : world)
    (d : dict) (v : value) :
  cached (fs w) = VDict d -> dict_get key d = None ->
  fetch (emit "making new request" w) = (Ok v, w1) ->
  writable (fs w1) = true ->
  with_cache key fetch w
  = (Ok v,
     set_fs (mkFs (written (json_dumps (VDict (d ++ [(key, v)]))) (cache_file (fs w1)))
                  true) w1).
Proof.
  intros Hc Hk Hf Hw. unfold with_cache, bind. rewrite open_cache_cached, Hc.
  unfold lift, py_contains, dict_mem. rewrite Hk. simpl. rewrite Hf. simpl.
  unfold save_cache, write_cache_file. rewrite Hw.
  unfold ret, py_getitem. by rewrite dict_get_set_eq, dict_set_fresh.
Qed.

(** A miss on which the fetch raises: the exception is the caller's, and
    the world is the one the fetch left. *)
Lemma with_cache_miss_raise (key : string) (fetch : M value) (w w1 : world)
    (d : dict) (e : exn) :
  cached (fs w) = VDict d -> dict_get key d = None ->
  fetch (emit "making new request" w) = (Raise e, w1) ->
  with_cache key fetch w = (Raise e, w1).
Proof.
  intros Hc Hk Hf. unfold with_cache, bind. rewrite open_cache_cached, Hc.
  unfold lift, py_contains, dict_mem. rewrite Hk. simpl. by rewrite Hf.
Qed.

(** However a cached function raises, it has not written the file, when
    its fetch writes no file.  (With the write of this model, which fails
    at the open or not at all.) *)
Lemma with_cache_raise_fs (key : string) (fetch : M value) (w w' : world)
    (e : exn) :
  (forall w0 r w1, fetch w0 = (r, w1) -> fs w1 = fs w0) ->
  with_cache key fetch w = (Raise e, w') -> fs w' = fs w.
Proof.
  intros Hfetch. unfold with_cache, bind. rewrite open_cache_cached.
  destruct (py_contains (cached (fs w)) key) as [[]|e0] eqn:Hhit;
    unfold lift; simpl.
  - by intros [= _ <-].
  - destruct (fetch (emit "making new request" w)) as [[v|e1] w1] eqn:Hf;
      apply Hfetch in Hf; simpl in Hf; [|by intros [= _ <-]].
    destruct (py_setitem (cached (fs w)) key v) as [c|e1] eqn:Hset; simpl;
      [|by intros [= _ <-]].
    unfold save_cache, write_cache_file.
    destruct (writable (fs w1)); simpl; [|by intros [= _ <-]].
    destruct (cached (fs w)); simpl in Hset; try discriminate.
    injection Hset as <-. simpl. by rewrite dict_get_set_eq.
  - by intros [= _ <-].
Qed.

Lemma fetch_page_fs (url : string) (w0 w1 : world) (r : result value) :
  fetch_page url w0 = (r, w1) -> fs w1 = fs w0.
Proof.
  unfold fetch_page, bind, requests_get.
  destruct (respond _ _); by intros [= _ <-].
Qed.

Lemma fetch_state_url_fs (states_dict : gmap string string) (state : string)
    (w0 w1 : world) (r : result value) :
  fetch_state_url states_dict state w0 = (r, w1) -> fs w1 = fs w0.
Proof.
  unfold fetch_state_url, bind.
  destruct (states_dict !! state); by intros [= _ <-].
Qed.

Lemma get_nearby_places_fs (site_object : NationalSite) (w0 w1 : world)
    (r : result value) :
  get_nearby_places site_object w0 = (r, w1) -> fs w1 = fs w0.
Proof.
  unfold get_nearby_places, bind, requests_get.
  destruct (respond _ _) as [body|]; simpl; [|by intros [= _ <-]].
  destruct (json_loads body); by intros [= _ <-].
Qed.

End CacheFacts.

(** ** The pipeline over the cache *)
Section PipelineFacts.
Context {codec : JsonCodec} {laws : JsonLaws} {net : Network}
        {secrets : Secrets} {parser : HtmlParser}.

Lemma py_getitem_Ok (store : value) (k : string) (x : value) :
  py_getitem store k = Ok x <->
  exists d, store = VDict d /\ dict_get k d = Some x.
Proof.
  split.
  - destruct store as [| | | | |d]; simpl; try done.
    destruct (dict_get k d) eqn:E; [|done]. intros [= ->]. by exists d.
  - intros (d & -> & Hd). simpl. by rewrite Hd.
Qed.

Lemma dict_get_app_l (k : string) (x : value) (d d' : dict) :
  dict_get k d = Some x -> dict_get k (d ++ d') = Some x.
Proof.
  induction d as [|[k' v'] d IH]; simpl; [done|].
  by destruct (String.eqb k' k).
Qed.

(** A cached function returns normally only on a store that is a dict. *)
Lemma with_cache_Ok_dict (key : string) (fetch : M value) (w w' : world)
    (v : value) :
  with_cache key fetch w = (Ok v, w') -> exists d, cached (fs w) = VDict d.
Proof.
  unfold with_cache, bind. rewrite open_cache_cached.
  destruct (cached (fs w)) as [| | | | |d]; simpl; try done; [| |by eexists].
  - destruct (substringb key s); simpl; [done|].
    by destruct (fetch _) as [[?|?] ?].
  - destruct (existsb _ l); simpl; [done|].
    by destruct (fetch _) as [[?|?] ?].
Qed.

(** What a call of [make_request_with_cache] that returns leaves behind:
    the store holds what was returned under [url], and has kept its
    items. *)
Lemma make_request_with_cache_Ok (url : string) (w w' : world) (v : value) :
  cache_file (fs w) <> Unreadable ->
  make_request_with_cache url w = (Ok v, w') ->
  cache_file (fs w') <> Unreadable
  /\ py_getitem (cached (fs w')) url = Ok v
  /\ store_le (cached (fs w)) (cached (fs w')).
Proof.
  intros Hr. rewrite make_request_with_cache_shape. intros Hcall.
  destruct (with_cache_Ok_dict _ _ _ _ _ Hcall) as [d Hc].
  destruct (dict_get url d) as [x|] eqn:Hg.
  - rewrite (with_cache_hit _ _ _ d x Hc Hg) in Hcall.
    injection Hcall as <- <-. simpl. rewrite Hc. simpl. rewrite Hg.
    split_and!; [done | done | by intros k y].
  - destruct (fetch_page url (emit "making new request" w)) as [[x|e] w1] eqn:Hf.
    2:{ by rewrite (with_cache_miss_raise _ _ _ _ d e Hc Hg Hf) in Hcall. }
    pose proof (fetch_page_fs _ _ _ _ Hf) as Hfs. simpl in Hfs.
    destruct (writable (fs w1)) eqn:Hw.
    2:{ revert Hcall. unfold with_cache, bind. rewrite open_cache_cached, Hc.
        unfold lift, py_contains, dict_mem. rewrite Hg. simpl. rewrite Hf. simpl.
        unfold save_cache, write_cache_file. by rewrite Hw. }
    rewrite (with_cache_miss _ _ _ _ d x Hc Hg Hf Hw) in Hcall.
    injection Hcall as <- <-. simpl. rewrite Hfs.
    assert (wf_value (VDict (d ++ [(url, x)]))) as Hwf.
    { rewrite <- (dict_set_fresh url x d Hg). apply wf_dict_set.
      - rewrite <- Hc. apply wf_cached.
      - revert Hf. unfold fetch_page, bind, requests_get.
        destruct (respond _ _); [by intros [= <- _] | done]. }
    rewrite cached_written by done. split_and!.
    + unfold written. by destruct (cache_file (fs w)).
    + assert (dict_get url (dict_set url x d) = Some x) as Hx
        by apply dict_get_set_eq.
      rewrite dict_set_fresh in Hx by done. simpl. by rewrite Hx.
    + intros k y [d0 [Hd0 Hy]]%py_getitem_Ok. rewrite Hc in Hd0.
      injection Hd0 as <-. apply py_getitem_Ok. eexists. split; [done|].
      by apply dict_get_app_l.
Qed.

(** On a store that holds [url], [make_request_with_cache] returns what is
    under it, and only prints. *)
Lemma make_request_with_cache_warm (url : string) (w : world) (v : value) :
  py_getitem (cached (fs w)) url = Ok v ->
  make_request_with_cache url w = (Ok v, emit "Using cache" w).
Proof.
  intros (d & Hc & Hg)%py_getitem_Ok. rewrite make_request_with_cache_shape.
  by apply with_cache_hit with d.
Qed.

Lemma get_site_instance_Ok (href : string) (w w' : world) (site : NationalSite) :
  cache_file (fs w) <> Unreadable ->
  get_site_instance ("https://www.nps.gov" +:+ href) w = (Ok site, w') ->
  cache_file (fs w') <> Unreadable
  /\ site_of_link (cached (fs w')) href site
  /\ store_le (cached (fs w)) (cached (fs w')).
Proof.
  intros Hr. unfold get_site_instance, bind.
  destruct (make_request_with_cache _ w) as [[v|e] w1] eqn:Hcall; [|done].
  apply make_request_with_cache_Ok in Hcall as (Hr1 & Hv & Hle); [|done].
  destruct v as [| | |text| |]; simpl; try done.
  destruct (site_fields text) as [fields|] eqn:Hfields; simpl; [|done].
  intros [= <- <-]. split_and!; [done | by exists text, fields | done].
Qed.

Lemma get_site_instance_warm (href : string) (w : world) (site : NationalSite) :
  site_of_link (cached (fs w)) href site ->
  get_site_instance ("https://www.nps.gov" +:+ href) w
  = (Ok site, emit "Using cache" w).
Proof.
  intros (text & fields & Hv & Hfields & ->). unfold get_site_instance, bind.
  rewrite (make_request_with_cache_warm _ _ _ Hv). simpl.
  by rewrite Hfields.
Qed.

Lemma site_of_link_le (store store' : value) (href : string)
    (site : NationalSite) :
  store_le store store' -> site_of_link store href site ->
  site_of_link store' href site.
Proof.
  intros Hle (text & fields & Hv & Hfields & ->).
  exists text, fields. split_and!; [by apply Hle | done | done].
Qed.

(** The loop of [get_sites_for_state], when it returns: every park had its
    anchor, the records made are appended in the order of the parks, and
    each is the record of the page the store then holds for its link. *)
Lemma park_loop_Ok (park_list : list (option anchor)) :
  forall (park_instance sites : list NationalSite) (w w' : world),
    cache_file (fs w) <> Unreadable ->
    park_loop park_list park_instance w = (Ok sites, w') ->
    exists hrefs made,
      Forall2 (fun park href => href_of park = Ok href) park_list hrefs
      /\ sites = park_instance ++ made
      /\ Forall2 (site_of_link (cached (fs w'))) hrefs made
      /\ cache_file (fs w') <> Unreadable
      /\ store_le (cached (fs w)) (cached (fs w')).
Proof.
  induction park_list as [|park rest IH]; intros acc sites w w' Hr.
  - intros [= <- <-]. exists [], []. rewrite app_nil_r.
    split_and!; [constructor | done | constructor | done | by intros k x].
  - cbn [park_loop]. unfold bind at 1, lift at 1.
    destruct (href_of park) as [href|e] eqn:Hhref; [|done].
    unfold bind at 1.
    destruct (get_site_instance _ w) as [[site|e] w1] eqn:Hsite; [|done].
    apply get_site_instance_Ok in Hsite as (Hr1 & Hlink & Hle); [|done].
    intros Hloop.
    destruct (IH _ _ _ _ Hr1 Hloop) as (hrefs & made & Hparks & -> & Hall & Hr' & Hle').
    exists (href :: hrefs), (site :: made). split_and!.
    + by constructor.
    + by rewrite <- app_assoc.
    + constructor; [by eapply site_of_link_le | done].
    + done.
    + intros k x Hk. by apply Hle', Hle.
Qed.

(** The loop on a store that holds the page of every link: the records
    are made in order, and nothing but the terminal changes. *)
Lemma park_loop_warm (park_list : list (option anchor)) :
  forall (hrefs : list string) (made park_instance : list NationalSite)
         (w : world),
    Forall2 (fun park href => href_of park = Ok href) park_list hrefs ->
    Forall2 (site_of_link (cached (fs w))) hrefs made ->
    exists w',
      park_loop park_list park_instance w = (Ok (park_instance ++ made), w')
      /\ fs w' = fs w /\ net_log w' = net_log w.
Proof.
  induction park_list as [|park rest IH]; intros hrefs made acc w Hparks Hall.
  - apply Forall2_nil_inv_l in Hparks as ->.
    apply Forall2_nil_inv_l in Hall as ->. exists w. by rewrite app_nil_r.
  - apply Forall2_cons_inv_l in Hparks as (href & hrefs' & Hhref & Hparks & ->).
    apply Forall2_cons_inv_l in Hall as (site & made' & Hlink & Hall & ->).
    cbn [park_loop]. unfold bind at 1, lift at 1. rewrite Hhref.
    unfold bind at 1. rewrite (get_site_instance_warm _ _ _ Hlink).
    destruct (IH hrefs' made' (acc ++ [site]) (emit "Using cache" w) Hparks Hall)
      as (w' & Hloop & Hfs & Hlog).
    exists w'. rewrite Hloop, <- app_assoc. by split_and!.
Qed.

(** The loop of [build_state_url_dict] touches nothing outside the
    program. *)
Lemma state_url_loop_pure (baseurl : string) (states : list (option anchor)) :
  forall (state_url_dict : gmap string string) (w : world),
    exists r, state_url_loop baseurl states state_url_dict w = (r, w).
Proof.
  induction states as [|state rest IH]; intros acc w; cbn [state_url_loop].
  - by eexists.
  - unfold bind at 1, lift at 1. destruct (text_of state) as [text|e]; [|by eexists].
    unfold bind at 1, lift at 1. destruct (href_of state) as [href|e]; [|by eexists].
    apply IH.
Qed.

(** On a store that holds the index page, [build_state_url_dict] sends no
    request and writes no file. *)
Lemma build_state_url_dict_warm (w : world) (v : value) :
  py_getitem (cached (fs w)) "https://www.nps.gov/index.htm" = Ok v ->
  exists r, build_state_url_dict w = (r, emit "Using cache" w).
Proof.
  intros Hv. unfold build_state_url_dict, bind at 1.
  rewrite (make_request_with_cache_warm _ _ _ Hv).
  unfold bind at 1, expect_str.
  destruct v as [| | |text| |]; try by eexists.
  unfold ret at 1, bind at 1.
  destruct (state_links text) as [states|]; simpl; [|by eexists].
  apply state_url_loop_pure.
Qed.

(** *** Requests are only ever added to the log *)

Lemma appends_ret {A} (a : A) : appends (ret a).
Proof. intros w r w' [= _ <-]. exists []. by rewrite app_nil_r. Qed.

Lemma appends_raise {A} (e : exn) : appends (raise (A := A) e).
Proof. intros w r w' [= _ <-]. exists []. by rewrite app_nil_r. Qed.

Lemma appends_lift {A} (x : result A) : appends (lift x).
Proof. intros w r w' [= _ <-]. exists []. by rewrite app_nil_r. Qed.

Lemma appends_or_raise {A} (e : exn) (o : option A) : appends (or_raise e o).
Proof. destruct o; [apply appends_ret | apply appends_raise]. Qed.

Lemma appends_print (line : string) : appends (print line).
Proof. intros w r w' [= _ <-]. exists []. simpl. by rewrite app_nil_r. Qed.

Lemma appends_bind {A B} (m : M A) (k : A -> M B) :
  appends m -> (forall a, appends (k a)) -> appends (bind m k).
Proof.
  intros Hm Hk w r w'. unfold bind.
  destruct (m w) as [[a|e] w1] eqn:Em; apply Hm in Em as [more1 Hm1].
  - intros [more2 Hk2]%Hk. exists (more1 ++ more2).
    by rewrite Hk2, Hm1, app_assoc.
  - intros [= _ <-]. by exists more1.
Qed.

Lemma appends_requests_get (r : request) : appends (requests_get r).
Proof.
  intros w x w'. unfold requests_get.
  destruct (respond _ _); intros [= _ <-]; by exists [r].
Qed.

Lemma appends_open_cache : appends open_cache.
Proof.
  intros w r w'. rewrite open_cache_cached. intros [= _ <-].
  exists []. by rewrite app_nil_r.
Qed.

Lemma appends_save_cache (cache_dict : value) : appends (save_cache cache_dict).
Proof.
  intros w r w'. unfold save_cache, write_cache_file.
  destruct (writable (fs w)); intros [= _ <-]; exists []; simpl;
    by rewrite app_nil_r.
Qed.

Create HintDb appends discriminated.
#[local] Hint Resolve appends_ret appends_raise appends_lift appends_or_raise
  appends_print appends_requests_get appends_open_cache appends_save_cache
  : appends.
#[local] Hint Extern 2 (appends (bind _ _)) =>
  apply appends_bind; [|intros ?] : appends.
#[local] Hint Extern 3 (appends (if ?b then _ else _)) => destruct b : appends.
#[local] Hint Extern 3 (appends (match ?v with VStr _ => _ | _ => _ end)) =>
  destruct v : appends.

Lemma appends_make_request_with_cache (url : string) :
  appends (make_request_with_cache url).
Proof. unfold make_request_with_cache. auto 20 with appends. Qed.

Lemma appends_get_site_instance (site_url : string) :
  appends (get_site_instance site_url).
Proof.
  pose proof appends_make_request_with_cache.
  unfold get_site_instance, expect_str. auto 20 with appends.
Qed.

Lemma appends_park_loop (park_list : list (option anchor))
    (park_instance : list NationalSite) :
  appends (park_loop park_list park_instance).
Proof.
  revert park_instance.
  induction park_list as [|park rest IH]; intros acc; cbn [park_loop].
  - apply appends_ret.
  - pose proof appends_get_site_instance. auto 20 with appends.
Qed.

End PipelineFacts.

(** * The claims of the specification *)
Section Claims.
Context {codec : JsonCodec} {laws : JsonLaws} {net : Network}
        {secrets : Secrets} {parser : HtmlParser}.

(** C4: whatever the state of the backing file, [open_cache] returns and
    raises nothing, and leaves the world as it was.  It returns the empty
    dict when the file is absent, when it cannot be read, and when its text
    is not JSON; it returns the parsed value when the text parses, and a
    result other than the empty dict can only be the parse of the file. *)
Theorem open_cache_never_raises (w : world) :
  exists v,
    open_cache w = (Ok v, w)
    /\ (cache_file (fs w) = Absent -> v = VDict [])
    /\ (cache_file (fs w) = Unreadable -> v = VDict [])
    /\ (forall s, cache_file (fs w) = Contents s -> json_loads s = None -> v = VDict [])
    /\ (forall s parsed,
          cache_file (fs w) = Contents s -> json_loads s = Some parsed -> v = parsed)
    /\ (v <> VDict [] ->
        exists s, cache_file (fs w) = Contents s /\ json_loads s = Some v).
Proof.
  exists (cached (fs w)). split; [apply open_cache_cached|].
  unfold cached. destruct (cache_file (fs w)) as [| |s] eqn:Ef.
  - by split_and!.
  - by split_and!.
  - destruct (json_loads s) as [p|] eqn:Ep; split_and!; try done.
    + intros s' [= <-]. by rewrite Ep.
    + intros s' p' [= <-]. rewrite Ep. by intros [= ->].
    + intros _. by exists s.
    + intros s' p' [= <-]. by rewrite Ep.
Qed.

(** C5: saving a store whose file can be written and read, and loading
    after it, gives the store back; the file then holds the store's JSON
    text and nothing of what it held before. *)
Theorem save_then_open_gives_store (m : dict) (w : world) :
  wf_value (VDict m) ->
  writable (fs w) = true -> cache_file (fs w) <> Unreadable ->
  exists w1,
    save_cache (VDict m) w = (Ok tt, w1)
    /\ cache_file (fs w1) = Contents (json_dumps (VDict m))
    /\ open_cache w1 = (Ok (VDict m), w1).
Proof.
  intros Hwf Hw Hr. unfold save_cache, write_cache_file. rewrite Hw.
  eexists. split; [reflexivity|]. split.
  - simpl. unfold written. by destruct (cache_file (fs w)).
  - rewrite open_cache_cached. simpl. by rewrite cached_written.
Qed.

(** C1: when the store lacks [url], the server answers [text] and the file
    can be written and read, the first call of [make_request_with_cache]
    sends one request, returns [text], and leaves the file holding the
    store with [url] mapped to [text]; a second call on the world the first
    one left returns [text] too, sends no request and writes no file. *)
Theorem make_request_with_cache_twice_fetches_once
    (url text : string) (d : dict) (w : world) :
  open_cache w = (Ok (VDict d), w) -> dict_get url d = None ->
  respond (net_log w) (mkRequest url []) = Some text ->
  writable (fs w) = true -> cache_file (fs w) <> Unreadable ->
  exists w1 w2,
    make_request_with_cache url w = (Ok (VStr text), w1)
    /\ net_log w1 = net_log w ++ [mkRequest url []]
    /\ cache_file (fs w1) = Contents (json_dumps (VDict (d ++ [(url, VStr text)])))
    /\ open_cache w1 = (Ok (VDict (d ++ [(url, VStr text)])), w1)
    /\ make_request_with_cache url w1 = (Ok (VStr text), w2)
    /\ net_log w2 = net_log w1
    /\ fs w2 = fs w1.
Proof.
  intros [Hc _]%open_cache_inv Hmiss Hnet Hw Hr.
  assert (wf_value (VDict (d ++ [(url, VStr text)]))) as Hwf.
  { rewrite <- (dict_set_fresh url (VStr text) d Hmiss).
    apply wf_dict_set; [|done]. rewrite <- Hc. apply wf_cached. }
  eexists _, _. rewrite !make_request_with_cache_shape.
  rewrite (with_cache_miss url _ w
             (log_request (mkRequest url []) (emit "making new request" w))
             d (VStr text)); [| done | done | | done]; cycle 1.
  { unfold fetch_page, bind, requests_get. simpl. rewrite Hnet. reflexivity. }
  split; [reflexivity|]. split; [reflexivity|]. split.
  { simpl. unfold written. by destruct (cache_file (fs w)). }
  assert (cached (mkFs (written (json_dumps (VDict (d ++ [(url, VStr text)])))
                               (cache_file (fs w))) true)
          = VDict (d ++ [(url, VStr text)])) as Hc1
    by (by apply cached_written).
  split; [rewrite open_cache_cached; simpl; by rewrite Hc1|].
  erewrite with_cache_hit; [split; [reflexivity|]; by split | apply Hc1 |].
  assert (dict_get url (dict_set url (VStr text) d) = Some (VStr text)) as Hg
    by apply dict_get_set_eq.
  by rewrite dict_set_fresh in Hg.
Qed.

(** C7: from an empty store, with a catalog that maps ["michigan"] to [u]
    and a file that can be written and read, [get_url_with_cache] for
    ["michigan"] returns [u] without any request, and the store it leaves
    holds the one item ["Michigan"] mapped to [u]. *)
Theorem get_url_with_cache_michigan
    (states_dict : gmap string string) (u : string) (w : world) :
  open_cache w = (Ok (VDict []), w) ->
  states_dict !! "michigan" = Some u ->
  writable (fs w) = true -> cache_file (fs w) <> Unreadable ->
  exists w1,
    get_url_with_cache states_dict "michigan" w = (Ok (VStr u), w1)
    /\ open_cache w1 = (Ok (VDict [("Michigan", VStr u)]), w1)
    /\ cache_file (fs w1) = Contents (json_dumps (VDict [("Michigan", VStr u)]))
    /\ net_log w1 = net_log w.
Proof.
  intros [Hc _]%open_cache_inv Hu Hw Hr.
  eexists. rewrite get_url_with_cache_shape.
  rewrite (with_cache_miss _ _ w (emit "making new request" w) [] (VStr u));
    [| done | done | | done]; cycle 1.
  { unfold fetch_state_url, bind. rewrite Hu. reflexivity. }
  split; [reflexivity|]. rewrite open_cache_cached. simpl.
  rewrite cached_written; [| done | split; [apply NoDup_singleton | done]].
  split; [reflexivity|]. split; [|reflexivity].
  unfold written. by destruct (cache_file (fs w)).
Qed.

(** C8: [get_nearby_with_cache] looks the site's name up as it is.  When
    the store maps the name to [v], the call returns [v], and only prints
    that it uses the cache: no request is sent.  When the store lacks the
    name, the API answers a JSON text and the file can be written and read,
    the call sends the one API request, returns the decoded answer, and
    leaves the store holding it under the name. *)
Theorem get_nearby_with_cache_keyed_by_name
    (instance : NationalSite) (d : dict) (w : world) :
  open_cache w = (Ok (VDict d), w) ->
  (forall v,
     dict_get (name instance) d = Some v ->
     get_nearby_with_cache instance w = (Ok v, emit "Using cache" w))
  /\ (forall body nearby,
        dict_get (name instance) d = None ->
        respond (net_log w) (nearby_request instance) = Some body ->
        json_loads body = Some nearby ->
        writable (fs w) = true -> cache_file (fs w) <> Unreadable ->
        exists w1,
          get_nearby_with_cache instance w = (Ok nearby, w1)
          /\ net_log w1 = net_log w ++ [nearby_request instance]
          /\ open_cache w1 = (Ok (VDict (d ++ [(name instance, nearby)])), w1)
          /\ cache_file (fs w1)
             = Contents (json_dumps (VDict (d ++ [(name instance, nearby)])))).
Proof.
  intros [Hc _]%open_cache_inv. split.
  - intros v Hv. rewrite get_nearby_with_cache_shape.
    by apply with_cache_hit with d.
  - intros body nearby Hmiss Hnet Hbody Hw Hr.
    assert (wf_value (VDict (d ++ [(name instance, nearby)]))) as Hwf.
    { rewrite <- (dict_set_fresh _ nearby d Hmiss).
      apply wf_dict_set; [rewrite <- Hc; apply wf_cached | by eapply loads_wf]. }
    eexists. rewrite get_nearby_with_cache_shape.
    rewrite (with_cache_miss _ _ w
               (emit "Fetching" (log_request (nearby_request instance)
                                   (emit "making new request" w)))
               d nearby); [| done | done | | done]; cycle 1.
    { unfold get_nearby_places, bind, requests_get. fold (nearby_request instance).
      simpl. rewrite Hnet. simpl. rewrite Hbody. reflexivity. }
    split; [reflexivity|]. split; [reflexivity|].
    rewrite open_cache_cached. simpl. rewrite cached_written by done.
    split; [reflexivity|]. unfold written. by destruct (cache_file (fs w)).
Qed.

(** C10: when the store has the capitalized state name as a key,
    [get_url_with_cache] returns the value under it and does nothing else
    but print that it uses the cache, whatever the catalog index holds: the
    index is not consulted, so no [KeyError] can come from it. *)
Theorem get_url_with_cache_hit_ignores_index
    (states_dict : gmap string string) (state : string) (d : dict)
    (v : value) (w : world) :
  open_cache w = (Ok (VDict d), w) ->
  dict_get (capitalize state) d = Some v ->
  get_url_with_cache states_dict state w = (Ok v, emit "Using cache" w).
Proof.
  intros [Hc _]%open_cache_inv Hv. rewrite get_url_with_cache_shape.
  by apply with_cache_hit with d.
Qed.

(** C6: a fetch that fails on a miss makes the call raise, and the cache
    file is then as it was: no entry has been stored.  This holds of a
    request the network does not answer, of a state name the catalog index
    lacks, and of an API answer that is not JSON.  So the file is written
    only after the fetch and the decoding have succeeded. *)
Theorem failed_fetch_writes_nothing (w : world) :
  (forall url d,
     open_cache w = (Ok (VDict d), w) -> dict_get url d = None ->
     respond (net_log w) (mkRequest url []) = None ->
     exists w',
       make_request_with_cache url w = (Raise RequestException, w')
       /\ fs w' = fs w)
  /\ (forall states_dict state d,
        open_cache w = (Ok (VDict d), w) ->
        dict_get (capitalize state) d = None ->
        states_dict !! state = None ->
        exists w',
          get_url_with_cache states_dict state w = (Raise (KeyError state), w')
          /\ fs w' = fs w)
  /\ (forall instance d,
        open_cache w = (Ok (VDict d), w) ->
        dict_get (name instance) d = None ->
        respond (net_log w) (nearby_request instance) = None ->
        exists w',
          get_nearby_with_cache instance w = (Raise RequestException, w')
          /\ fs w' = fs w)
  /\ (forall instance d body,
        open_cache w = (Ok (VDict d), w) ->
        dict_get (name instance) d = None ->
        respond (net_log w) (nearby_request instance) = Some body ->
        json_loads body = None ->
        exists w',
          get_nearby_with_cache instance w = (Raise JSONDecodeError, w')
          /\ fs w' = fs w).
Proof.
  split_and!.
  - intros url d [Hc _]%open_cache_inv Hmiss Hnet.
    eexists. rewrite make_request_with_cache_shape. split.
    + apply with_cache_miss_raise with d; [done | done |].
      unfold fetch_page, bind, requests_get. simpl. by rewrite Hnet.
    + reflexivity.
  - intros states_dict state d [Hc _]%open_cache_inv Hmiss Hnone.
    eexists. rewrite get_url_with_cache_shape. split.
    + apply with_cache_miss_raise with d; [done | done |].
      unfold fetch_state_url, bind. by rewrite Hnone.
    + reflexivity.
  - intros instance d [Hc _]%open_cache_inv Hmiss Hnet.
    eexists. rewrite get_nearby_with_cache_shape. split.
    + apply with_cache_miss_raise with d; [done | done |].
      unfold get_nearby_places, bind, requests_get.
      fold (nearby_request instance). simpl. by rewrite Hnet.
    + reflexivity.
  - intros instance d body [Hc _]%open_cache_inv Hmiss Hnet Hbody.
    eexists. rewrite get_nearby_with_cache_shape. split.
    + apply with_cache_miss_raise with d; [done | done |].
      unfold get_nearby_places, bind, requests_get.
      fold (nearby_request instance). simpl. rewrite Hnet. simpl.
      by rewrite Hbody.
    + reflexivity.
Qed.

(** C9: when [get_sites_for_state] returns on a file that can be read,
    every park cell of the state page had a link, there is one record per
    link, and the records are in the order of the links: the i-th record is
    the one made from the page that the store now holds for the i-th link.
    If the server then serves the same state page again, a second call
    returns the same records in the same order; it sends the one request
    for the state page and writes no file. *)
Theorem get_sites_for_state_order_stable
    (state_url : string) (w w1 : world) (sites : list NationalSite) :
  cache_file (fs w) <> Unreadable ->
  get_sites_for_state state_url w = (Ok sites, w1) ->
  respond (net_log w1) (mkRequest state_url [])
  = respond (net_log w) (mkRequest state_url []) ->
  exists page park_list hrefs store,
    respond (net_log w) (mkRequest state_url []) = Some page
    /\ park_links (strip page) = Some park_list
    /\ Forall2 (fun park href => href_of park = Ok href) park_list hrefs
    /\ open_cache w1 = (Ok store, w1)
    /\ Forall2 (site_of_link store) hrefs sites
    /\ exists w2,
         get_sites_for_state state_url w1 = (Ok sites, w2)
         /\ net_log w2 = net_log w1 ++ [mkRequest state_url []]
         /\ fs w2 = fs w1.
Proof.
  intros Hr Hfirst Hsame. revert Hfirst.
  unfold get_sites_for_state, bind at 1, requests_get at 1.
  destruct (respond (net_log w) _) as [page|] eqn:Hpage; [|done].
  unfold bind at 1.
  destruct (park_links (strip page)) as [park_list|] eqn:Hparks; simpl; [|done].
  intros Hloop. apply park_loop_Ok in Hloop; [|done].
  destruct Hloop as (hrefs & made & Hlinks & -> & Hall & _ & _).
  exists page, park_list, hrefs, (cached (fs w1)). split_and!; try done.
  { apply open_cache_cached. }
  unfold bind at 1, requests_get at 1. rewrite Hsame.
  unfold bind at 1. rewrite Hparks. simpl.
  destruct (park_loop_warm park_list hrefs made []
              (log_request (mkRequest state_url []) w1) Hlinks Hall)
    as (w2 & Hloop & Hfs & Hlog).
  exists w2. by rewrite Hloop.
Qed.

(** C2 fails on the code: [get_sites_for_state] sends the request for the
    state page itself, before anything else and without looking at the
    cache, so every call reaches the network whatever the store holds. *)
Theorem get_sites_for_state_bypasses_cache (state_url : string) (w : world) :
  exists r w' more,
    get_sites_for_state state_url w = (r, w')
    /\ net_log w' = net_log w ++ mkRequest state_url [] :: more.
Proof.
  unfold get_sites_for_state, bind at 1, requests_get at 1.
  destruct (respond (net_log w) _) as [page|]; [|by eexists _, _, []].
  destruct (bind _ _ (log_request (mkRequest state_url []) w))
    as [r w'] eqn:Hrest.
  assert (exists more,
             net_log w' = net_log (log_request (mkRequest state_url []) w) ++ more)
    as [more Hmore].
  { revert Hrest. apply appends_bind; [apply appends_or_raise|].
    intros park_list. apply appends_park_loop. }
  exists r, w', more. split; [done|]. rewrite Hmore. simpl.
  by rewrite <- app_assoc.
Qed.

(** C3 fails on the code: the catalog index is looked up with the state
    name as it was typed.  With an index that holds ["michigan"], the
    command loop accepts ["Michigan"] (its lower-cased form is a key), and
    on an empty cache [get_url_with_cache] then raises [KeyError]. *)
Theorem get_url_with_cache_mixed_case_raises (u : string) :
  let states_dict : gmap string string := {["michigan" := u]} in
  let w := mkWorld (mkFs Absent true) [] [] in
  states_dict !! lower "Michigan" = Some u
  /\ get_url_with_cache states_dict "Michigan" w
     = (Raise (KeyError "Michigan"), emit "making new request" w)
  /\ sites_of_input states_dict "Michigan" w
     = (Raise (KeyError "Michigan"), emit "making new request" w).
Proof.
  intros states_dict w.
  assert (states_dict !! lower "Michigan" = Some u) as Hlow
    by apply lookup_singleton_eq.
  assert (states_dict !! "Michigan" = None) as Hnone
    by (by apply lookup_singleton_ne).
  assert (get_url_with_cache states_dict "Michigan" w
          = (Raise (KeyError "Michigan"), emit "making new request" w)) as Hcall.
  { rewrite get_url_with_cache_shape.
    apply with_cache_miss_raise with []; [done | done |].
    unfold fetch_state_url, bind. by rewrite Hnone. }
  split_and!; [done | done |].
  unfold sites_of_input. rewrite bool_decide_true by (by rewrite Hlow).
  unfold bind at 1. by rewrite Hcall.
Qed.

End Claims.

(** * Further properties of the program *)

(** ** The [str] methods *)

Ltac by_char c := destruct c as [[] [] [] [] [] [] [] []]; reflexivity.

Lemma lower_char_idem (c : ascii) : lower_char (lower_char c) = lower_char c.
Proof. by_char c. Qed.

Lemma upper_lower_char (c : ascii) : upper_char (lower_char c) = upper_char c.
Proof. by_char c. Qed.

Lemma lower_upper_char (c : ascii) : lower_char (upper_char c) = lower_char c.
Proof. by_char c. Qed.

Lemma is_whitespace_lower_char (c : ascii) :
  is_whitespace (lower_char c) = is_whitespace c.
Proof. by_char c. Qed.

Lemma lower_idem (s : string) : lower (lower s) = lower s.
Proof.
  induction s as [|c s IH]; [done|]. simpl. by rewrite lower_char_idem, IH.
Qed.

(** The key of the cache depends on the state name up to case only. *)
Lemma capitalize_lower (s s' : string) :
  lower s = lower s' -> capitalize s = capitalize s'.
Proof.
  destruct s as [|c s], s' as [|c' s']; simpl; try done.
  intros [= Hc Hs]. rewrite <- (upper_lower_char c), Hc, upper_lower_char.
  by rewrite Hs.
Qed.

Lemma lower_capitalize (s : string) : lower (capitalize s) = lower s.
Proof.
  destruct s as [|c s]; [done|]. simpl.
  by rewrite lower_upper_char, lower_idem.
Qed.

Lemma lower_lstrip (s : string) : lower (lstrip s) = lstrip (lower s).
Proof.
  induction s as [|c s IH]; [done|]. simpl.
  rewrite is_whitespace_lower_char. by destruct (is_whitespace c).
Qed.

Lemma lower_rev_app (s1 s2 : string) :
  lower (String.rev_app s1 s2) = String.rev_app (lower s1) (lower s2).
Proof.
  revert s2. induction s1 as [|c s1 IH]; intros s2; [done|].
  simpl. by rewrite IH.
Qed.

Lemma lower_strip (s : string) : lower (strip s) = strip (lower s).
Proof.
  unfold strip, String.rev.
  by rewrite lower_rev_app, lower_lstrip, lower_rev_app, lower_lstrip.
Qed.

(** ** The cached functions, beyond the claims *)
Section CacheMore.
Context {codec : JsonCodec} {laws : JsonLaws} {net : Network}
        {secrets : Secrets} {parser : HtmlParser}.

(** How a cached function returns normally: on a dict, by a hit that only
    prints, or by a miss whose fetch succeeded and whose write did. *)
Lemma with_cache_Ok_inv (key : string) (fetch : M value) (w w' : world)
    (v : value) :
  with_cache key fetch w = (Ok v, w') ->
  exists d,
    cached (fs w) = VDict d
    /\ ((dict_get key d = Some v /\ w' = emit "Using cache" w)
        \/ (dict_get key d = None
            /\ exists w1,
                 fetch (emit "making new request" w) = (Ok v, w1)
                 /\ writable (fs w1) = true
                 /\ w' = set_fs (mkFs (written (json_dumps (VDict (d ++ [(key, v)])))
                                              (cache_file (fs w1))) true) w1)).
Proof.
  intros Hcall. destruct (with_cache_Ok_dict _ _ _ _ _ Hcall) as [d Hc].
  exists d. split; [done|].
  destruct (dict_get key d) as [x|] eqn:Hg.
  - rewrite (with_cache_hit _ _ _ d x Hc Hg) in Hcall.
    injection Hcall as <- <-. by left.
  - right. split; [done|].
    destruct (fetch (emit "making new request" w)) as [[x|e] w1] eqn:Hf.
    2:{ by rewrite (with_cache_miss_raise _ _ _ _ d e Hc Hg Hf) in Hcall. }
    destruct (writable (fs w1)) eqn:Hw.
    2:{ revert Hcall. unfold with_cache, bind. rewrite open_cache_cached, Hc.
        unfold lift, py_contains, dict_mem. rewrite Hg. simpl. rewrite Hf. simpl.
        unfold save_cache, write_cache_file. by rewrite Hw. }
    rewrite (with_cache_miss _ _ _ _ d x Hc Hg Hf Hw) in Hcall.
    injection Hcall as <- <-. by exists w1.
Qed.

(** The store the file stands for after a write. *)
Lemma cached_after_write (f : filesystem) (d : dict) :
  wf_value (VDict d) ->
  cached (mkFs (written (json_dumps (VDict d)) (cache_file f)) true)
  = match cache_file f with
    | Unreadable => VDict []
    | _ => VDict d
    end.
Proof.
  intros Hwf. pose proof (cached_written f (VDict d)) as Hcw.
  destruct (cache_file f); [by apply Hcw | done | by apply Hcw].
Qed.

(** A cached function leaves every item of the store where it was, and
    adds no item but at its own key. *)
Lemma with_cache_frame (key : string) (fetch : M value) (w w' : world)
    (r : result value) :
  (forall w0 r0 w1, fetch w0 = (r0, w1) -> fs w1 = fs w0) ->
  (forall w0 v w1, fetch w0 = (Ok v, w1) -> wf_value v) ->
  with_cache key fetch w = (r, w') ->
  store_le (cached (fs w)) (cached (fs w'))
  /\ (forall k x,
        k <> key -> py_getitem (cached (fs w')) k = Ok x ->
        py_getitem (cached (fs w)) k = Ok x).
Proof.
  intros Hfs Hwf Hcall. destruct r as [v|e].
  2:{ apply with_cache_raise_fs in Hcall; [|done]. rewrite Hcall.
      split; [by intros k x | by intros k x _]. }
  apply with_cache_Ok_inv in Hcall
    as (d & Hc & [[Hg ->] | (Hg & w1 & Hf & Hw & ->)]).
  { simpl. split; [by intros k x | by intros k x _]. }
  pose proof (Hfs _ _ _ Hf) as Hfs1. simpl in Hfs1.
  assert (wf_value (VDict (d ++ [(key, v)]))) as Hwfd.
  { rewrite <- (dict_set_fresh key v d Hg). apply wf_dict_set.
    - rewrite <- Hc. apply wf_cached.
    - by eapply Hwf. }
  simpl. rewrite cached_after_write by done. rewrite Hfs1.
  assert (cache_file (fs w) = Unreadable -> d = []) as Hu.
  { intros Hu. revert Hc. unfold cached. rewrite Hu. by intros [= <-]. }
  assert (store_le (VDict d) (VDict (d ++ [(key, v)]))
          /\ (forall k x,
                k <> key -> py_getitem (VDict (d ++ [(key, v)])) k = Ok x ->
                py_getitem (VDict d) k = Ok x)) as Hgrow; cycle 1.
  { rewrite Hc. destruct (cache_file (fs w)); try done.
    rewrite (Hu eq_refl). split; [by intros k x | by intros k x _]. }
  split.
    + intros k x (d0 & [= <-] & Hx)%py_getitem_Ok. apply py_getitem_Ok.
      eexists. split; [done|]. by apply dict_get_app_l.
    + intros k x Hk (d0 & [= <-] & Hx)%py_getitem_Ok. apply py_getitem_Ok.
      exists d. split; [done|].
      assert (dict_get k (dict_set key v d) = dict_get k d) as Hne
        by (by apply dict_get_set_ne).
      rewrite dict_set_fresh in Hne by done. by rewrite <- Hne.
Qed.

(** A miss on which everything works, and the store it leaves. *)
Lemma with_cache_miss_stored (key : string) (fetch : M value) (w w1 : world)
    (d : dict) (v : value) :
  cached (fs w) = VDict d -> dict_get key d = None ->
  fetch (emit "making new request" w) = (Ok v, w1) ->
  fs w1 = fs w -> wf_value v ->
  writable (fs w) = true -> cache_file (fs w) <> Unreadable ->
  exists w2,
    with_cache key fetch w = (Ok v, w2)
    /\ cached (fs w2) = VDict (d ++ [(key, v)])
    /\ cache_file (fs w2) <> Unreadable
    /\ writable (fs w2) = true
    /\ net_log w2 = net_log w1.
Proof.
  intros Hc Hg Hf Hfs Hwf Hw Hr.
  assert (wf_value (VDict (d ++ [(key, v)]))) as Hwfd.
  { rewrite <- (dict_set_fresh key v d Hg). apply wf_dict_set; [|done].
    rewrite <- Hc. apply wf_cached. }
  eexists. split; [apply (with_cache_miss _ _ _ w1 d v); by rewrite ?Hfs|].
  simpl. rewrite Hfs, cached_written by done. split_and!; try done.
  unfold written. by destruct (cache_file (fs w)).
Qed.

(** X1: the key under which [get_url_with_cache] stores a state ignores
    the case of the name.  Once a call for [state] has stored the URL, a
    call for any spelling [state'] of the same name in another case returns
    that URL from the cache, whatever catalog index it is given. *)
Theorem get_url_with_cache_key_ignores_case
    (states_dict states_dict' : gmap string string) (state state' u : string)
    (d : dict) (w : world) :
  open_cache w = (Ok (VDict d), w) ->
  dict_get (capitalize state) d = None ->
  states_dict !! state = Some u ->
  writable (fs w) = true -> cache_file (fs w) <> Unreadable ->
  lower state' = lower state ->
  exists w1,
    get_url_with_cache states_dict state w = (Ok (VStr u), w1)
    /\ get_url_with_cache states_dict' state' w1
       = (Ok (VStr u), emit "Using cache" w1).
Proof.
  intros [Hc _]%open_cache_inv Hg Hu Hw Hr Hcase.
  destruct (with_cache_miss_stored (capitalize state)
              (fetch_state_url states_dict state) w
              (emit "making new request" w) d (VStr u))
    as (w1 & Hcall & Hc1 & _); try done.
  { unfold fetch_state_url, bind. by rewrite Hu. }
  exists w1. rewrite !get_url_with_cache_shape. split; [done|].
  apply with_cache_hit with (d ++ [(capitalize state, VStr u)]); [done|].
  rewrite (capitalize_lower state' state Hcase).
  rewrite <- (dict_set_fresh _ (VStr u) d Hg). apply dict_get_set_eq.
Qed.

(** X2: a call of one of the three cached functions that returns, or that
    raises anything but an error from the cache file, has kept every item
    the store held, with its value, and the only key the store can have
    gained is the key of the call. *)
Theorem cached_functions_keep_the_store (w : world) :
  (forall url r w',
     make_request_with_cache url w = (r, w') -> off_file r ->
     store_le (cached (fs w)) (cached (fs w'))
     /\ (forall k x,
           k <> url -> py_getitem (cached (fs w')) k = Ok x ->
           py_getitem (cached (fs w)) k = Ok x))
  /\ (forall states_dict state r w',
        get_url_with_cache states_dict state w = (r, w') -> off_file r ->
        store_le (cached (fs w)) (cached (fs w'))
        /\ (forall k x,
              k <> capitalize state -> py_getitem (cached (fs w')) k = Ok x ->
              py_getitem (cached (fs w)) k = Ok x))
  /\ (forall instance r w',
        get_nearby_with_cache instance w = (r, w') -> off_file r ->
        store_le (cached (fs w)) (cached (fs w'))
        /\ (forall k x,
              k <> name instance -> py_getitem (cached (fs w')) k = Ok x ->
              py_getitem (cached (fs w)) k = Ok x)).
Proof.
  split_and!.
  - intros url r w' Hcall _. revert Hcall.
    rewrite make_request_with_cache_shape.
    apply with_cache_frame.
    + intros w0 r0 w1. apply fetch_page_fs.
    + intros w0 v w1. unfold fetch_page, bind, requests_get.
      destruct (respond _ _); [by intros [= <- _] | done].
  - intros states_dict state r w' Hcall _. revert Hcall.
    rewrite get_url_with_cache_shape.
    apply with_cache_frame.
    + intros w0 r0 w1. apply fetch_state_url_fs.
    + intros w0 v w1. unfold fetch_state_url, bind.
      destruct (states_dict !! state); [by intros [= <- _] | done].
  - intros instance r w' Hcall _. revert Hcall.
    rewrite get_nearby_with_cache_shape.
    apply with_cache_frame.
    + intros w0 r0 w1. apply get_nearby_places_fs.
    + intros w0 v w1. unfold get_nearby_places, bind, requests_get.
      destruct (respond _ _) as [body|]; simpl; [|done].
      destruct (json_loads body) as [x|] eqn:Hx; [|done].
      intros [= <- _]. by eapply loads_wf.
Qed.

(** A hit of [get_nearby_with_cache]. *)
Lemma get_nearby_with_cache_hit
    (instance : NationalSite) (d : dict) (v : value) (w : world) :
  open_cache w = (Ok (VDict d), w) ->
  dict_get (name instance) d = Some v ->
  get_nearby_with_cache instance w = (Ok v, emit "Using cache" w).
Proof.
  intros [Hc _]%open_cache_inv Hv. rewrite get_nearby_with_cache_shape.
  by apply with_cache_hit with d.
Qed.

(** X3: the three functions share one store and do not tell their keys
    apart.  Once [get_url_with_cache] has stored the URL of a state, a
    site whose name is the capitalized state name gets that URL from
    [get_nearby_with_cache], and the API is not asked. *)
Theorem state_key_answers_for_site_name
    (states_dict : gmap string string) (state u : string)
    (instance : NationalSite) (d : dict) (w : world) :
  open_cache w = (Ok (VDict d), w) ->
  dict_get (capitalize state) d = None ->
  states_dict !! state = Some u ->
  writable (fs w) = true -> cache_file (fs w) <> Unreadable ->
  name instance = capitalize state ->
  exists w1,
    get_url_with_cache states_dict state w = (Ok (VStr u), w1)
    /\ get_nearby_with_cache instance w1 = (Ok (VStr u), emit "Using cache" w1).
Proof.
  intros [Hc _]%open_cache_inv Hg Hu Hw Hr Hname.
  destruct (with_cache_miss_stored (capitalize state)
              (fetch_state_url states_dict state) w
              (emit "making new request" w) d (VStr u))
    as (w1 & Hcall & Hc1 & _); try done.
  { unfold fetch_state_url, bind. by rewrite Hu. }
  exists w1. rewrite get_url_with_cache_shape, get_nearby_with_cache_shape.
  split; [done|].
  apply with_cache_hit with (d ++ [(capitalize state, VStr u)]); [done|].
  rewrite Hname, <- (dict_set_fresh _ (VStr u) d Hg). apply dict_get_set_eq.
Qed.

End CacheMore.

(** ** The pipeline, beyond the claims *)
Section PipelineMore.
Context {codec : JsonCodec} {laws : JsonLaws} {net : Network}
        {secrets : Secrets} {parser : HtmlParser}.

(** X4: [get_site_instance] caches the page it fetched before it looks
    into it.  On a miss the call sends one request and stores the page,
    and returns the record of the page or raises [AttributeError] when an
    element is missing; a second call sends no request and ends the same
    way, so a page that lacks an element keeps failing from the cache. *)
Theorem get_site_instance_caches_the_page
    (site_url text : string) (d : dict) (w : world) :
  open_cache w = (Ok (VDict d), w) -> dict_get site_url d = None ->
  respond (net_log w) (mkRequest site_url []) = Some text ->
  writable (fs w) = true -> cache_file (fs w) <> Unreadable ->
  let outcome :=
    match site_fields text with
    | Some fields => Ok (site_of_texts fields)
    | None => Raise AttributeError
    end in
  exists w1,
    get_site_instance site_url w = (outcome, w1)
    /\ net_log w1 = net_log w ++ [mkRequest site_url []]
    /\ open_cache w1 = (Ok (VDict (d ++ [(site_url, VStr text)])), w1)
    /\ get_site_instance site_url w1 = (outcome, emit "Using cache" w1).
Proof.
  intros [Hc _]%open_cache_inv Hg Hnet Hw Hr outcome.
  destruct (with_cache_miss_stored site_url (fetch_page site_url) w
              (log_request (mkRequest site_url []) (emit "making new request" w))
              d (VStr text))
    as (w1 & Hcall & Hc1 & _ & _ & Hlog); try done.
  { unfold fetch_page, bind, requests_get. simpl. by rewrite Hnet. }
  assert (make_request_with_cache site_url w1
          = (Ok (VStr text), emit "Using cache" w1)) as Hagain.
  { rewrite make_request_with_cache_shape.
    apply with_cache_hit with (d ++ [(site_url, VStr text)]); [done|].
    rewrite <- (dict_set_fresh _ (VStr text) d Hg). apply dict_get_set_eq. }
  exists w1. unfold get_site_instance, bind.
  rewrite (make_request_with_cache_shape site_url w), Hcall, Hagain. simpl. rewrite open_cache_cached, Hc1.
  unfold outcome. by destruct (site_fields text).
Qed.

(** X5: where the cache file cannot be written, nothing is ever cached:
    [make_request_with_cache] sends its request, raises [PermissionError]
    at the write and loses the page; called again, it sends the request
    again. *)
Theorem unwritable_cache_fetches_every_time
    (url text text' : string) (d : dict) (w : world) :
  open_cache w = (Ok (VDict d), w) -> dict_get url d = None ->
  writable (fs w) = false ->
  respond (net_log w) (mkRequest url []) = Some text ->
  respond (net_log w ++ [mkRequest url []]) (mkRequest url []) = Some text' ->
  exists w1 w2,
    make_request_with_cache url w = (Raise PermissionError, w1)
    /\ net_log w1 = net_log w ++ [mkRequest url []]
    /\ fs w1 = fs w
    /\ make_request_with_cache url w1 = (Raise PermissionError, w2)
    /\ net_log w2 = net_log w ++ [mkRequest url []; mkRequest url []]
    /\ fs w2 = fs w.
Proof.
  intros [Hc _]%open_cache_inv Hg Hw Hnet Hnet'.
  assert (forall w0 body,
    fs w0 = fs w -> respond (net_log w0) (mkRequest url []) = Some body ->
    make_request_with_cache url w0
    = (Raise PermissionError,
       log_request (mkRequest url []) (emit "making new request" w0))) as Hcall.
  { intros w0 body Hfs Hbody. unfold make_request_with_cache, bind.
    rewrite open_cache_cached, Hfs, Hc.
    unfold lift, py_contains, dict_mem. rewrite Hg. simpl.
    unfold requests_get. simpl. rewrite Hbody. simpl.
    unfold save_cache, write_cache_file. simpl. by rewrite Hfs, Hw. }
  eexists _, _. rewrite (Hcall w text) by done.
  split; [reflexivity|]. split; [reflexivity|]. split; [reflexivity|].
  rewrite (Hcall _ text') by done.
  split; [reflexivity|]. simpl. by rewrite <- app_assoc.
Qed.

(** X6: a cache file that holds JSON other than an object is not a cache
    and is never made one: on it each of the three functions raises, and
    leaves the file as it is. *)
Theorem non_object_store_is_never_repaired (v : value) (w : world) :
  open_cache w = (Ok v, w) -> (forall d, v <> VDict d) ->
  (forall url,
     exists e w', make_request_with_cache url w = (Raise e, w') /\ fs w' = fs w)
  /\ (forall states_dict state,
        exists e w',
          get_url_with_cache states_dict state w = (Raise e, w') /\ fs w' = fs w)
  /\ (forall instance,
        exists e w',
          get_nearby_with_cache instance w = (Raise e, w') /\ fs w' = fs w).
Proof.
  intros [Hc _]%open_cache_inv Hv.
  assert (forall key fetch,
    (forall w0 r w1, fetch w0 = (r, w1) -> fs w1 = fs w0) ->
    exists e w', with_cache key fetch w = (Raise e, w') /\ fs w' = fs w) as Hany.
  { intros key fetch Hfs.
    destruct (with_cache key fetch w) as [[x|e] w'] eqn:Hcall.
    - apply with_cache_Ok_dict in Hcall as [d Hd]. rewrite Hc in Hd.
      by destruct (Hv d).
    - exists e, w'. split; [done|]. by eapply with_cache_raise_fs. }
  split_and!.
  - intros url. rewrite make_request_with_cache_shape. apply Hany.
    intros w0 r w1. apply fetch_page_fs.
  - intros states_dict state. rewrite get_url_with_cache_shape. apply Hany.
    intros w0 r w1. apply fetch_state_url_fs.
  - intros instance. rewrite get_nearby_with_cache_shape. apply Hany.
    intros w0 r w1. apply get_nearby_places_fs.
Qed.

(** The loop of [build_state_url_dict] does not depend on the world. *)
Lemma state_url_loop_world (baseurl : string) (states : list (option anchor)) :
  forall (state_url_dict : gmap string string) (w w' : world)
         (r : result (gmap string string)),
    state_url_loop baseurl states state_url_dict w = (r, w') ->
    w' = w
    /\ forall w2, state_url_loop baseurl states state_url_dict w2 = (r, w2).
Proof.
  induction states as [|state rest IH]; intros acc w w' r; cbn [state_url_loop].
  - by intros [= <- <-].
  - unfold bind at 1 3, lift at 1 3.
    destruct (text_of state) as [text|e]; [|by intros [= <- <-]].
    unfold bind at 1 2, lift at 1 2.
    destruct (href_of state) as [href|e]; [|by intros [= <- <-]].
    apply IH.
Qed.

(** What the loop has put into the dict when it returns. *)
Lemma state_url_loop_Ok (baseurl : string) (states : list (option anchor)) :
  forall (acc sd : gmap string string) (w w' : world),
    state_url_loop baseurl states acc w = (Ok sd, w') ->
    (forall k url,
       sd !! k = Some url ->
       acc !! k = Some url
       \/ exists text href,
            Some (mkAnchor text (Some href)) ∈ states
            /\ k = strip (lower text) /\ url = baseurl +:+ href)
    /\ (forall a,
          a ∈ states ->
          exists text href,
            a = Some (mkAnchor text (Some href))
            /\ is_Some (sd !! strip (lower text)))
    /\ (forall k, is_Some (acc !! k) -> is_Some (sd !! k)).
Proof.
  induction states as [|state rest IH]; intros acc sd w w'; cbn [state_url_loop].
  - intros [= <- <-]. split_and!; [by left | | done].
    intros a Ha. by apply elem_of_nil in Ha.
  - unfold bind at 1, lift at 1.
    destruct state as [[text [href|]]|]; simpl; try done.
    unfold bind at 1. simpl. intros Hloop.
    destruct (IH _ _ _ _ Hloop) as (Hsound & Hall & Hmono).
    split_and!.
    + intros k url Hk. destruct (Hsound k url Hk) as [Hacc|Hin].
      * destruct (decide (strip (lower text) = k)) as [<-|Hne].
        -- rewrite lookup_insert_eq in Hacc. injection Hacc as <-.
           right. exists text, href. split_and!; [left | done | done].
        -- rewrite lookup_insert_ne in Hacc by done. by left.
      * destruct Hin as (t & h & Hin & -> & ->). right.
        exists t, h. split_and!; [by right | done | done].
    + intros a [->|Ha]%elem_of_cons.
      * exists text, href. split; [done|]. apply Hmono.
        rewrite lookup_insert_eq. by eexists.
      * by apply Hall.
    + intros k Hk. apply Hmono.
      destruct (decide (strip (lower text) = k)) as [<-|Hne].
      * rewrite lookup_insert_eq. by eexists.
      * by rewrite lookup_insert_ne.
Qed.

(** X7: the dict [build_state_url_dict] returns.  Every anchor of the
    menu of the index page is a key of it, under its text lower-cased and
    stripped; every key comes from an anchor, is its own lower-case form,
    and is mapped to the site's address followed by the [href] of that
    anchor. *)
Theorem build_state_url_dict_keys (w w' : world) (sd : gmap string string) :
  build_state_url_dict w = (Ok sd, w') ->
  exists page states,
    make_request_with_cache "https://www.nps.gov/index.htm" w = (Ok (VStr page), w')
    /\ state_links page = Some states
    /\ (forall k url,
          sd !! k = Some url ->
          lower k = k
          /\ exists text href,
               Some (mkAnchor text (Some href)) ∈ states
               /\ k = strip (lower text)
               /\ url = "https://www.nps.gov" +:+ href)
    /\ (forall a,
          a ∈ states ->
          exists text href,
            a = Some (mkAnchor text (Some href))
            /\ is_Some (sd !! strip (lower text))).
Proof.
  unfold build_state_url_dict, bind at 1.
  destruct (make_request_with_cache _ w) as [[v|e] w1] eqn:Hcall; [|done].
  unfold bind at 1, expect_str.
  destruct v as [| | |page| |]; try done. unfold ret at 1, bind at 1.
  destruct (state_links page) as [states|] eqn:Hlinks; simpl; [|done].
  intros Hloop. destruct (state_url_loop_world _ _ _ _ _ _ Hloop) as [-> _].
  destruct (state_url_loop_Ok _ _ _ _ _ _ Hloop) as (Hsound & Hall & _).
  exists page, states. split_and!; [done | done | | done].
  intros k url Hk. destruct (Hsound k url Hk) as [Hempty|Hin].
  { by rewrite lookup_empty in Hempty. }
  split; [|done]. destruct Hin as (text & href & _ & -> & _).
  by rewrite lower_strip, lower_idem.
Qed.

(** X8: the index page goes through the cache.  When a run of
    [build_state_url_dict] has returned on a file that can be read, a
    second run returns the same dict, sends no request and writes no
    file. *)
Theorem build_state_url_dict_second_run
    (w w1 : world) (sd : gmap string string) :
  cache_file (fs w) <> Unreadable ->
  build_state_url_dict w = (Ok sd, w1) ->
  build_state_url_dict w1 = (Ok sd, emit "Using cache" w1).
Proof.
  intros Hr. unfold build_state_url_dict, bind at 1.
  destruct (make_request_with_cache _ w) as [[v|e] wa] eqn:Hcall; [|done].
  apply make_request_with_cache_Ok in Hcall as (_ & Hv & _); [|done].
  unfold bind at 1, expect_str.
  destruct v as [| | |page| |]; try done. unfold ret at 1, bind at 1.
  destruct (state_links page) as [states|] eqn:Hlinks; simpl; [|done].
  intros Hloop. destruct (state_url_loop_world _ _ _ _ _ _ Hloop) as [-> Hany].
  unfold bind at 1. rewrite (make_request_with_cache_warm _ _ _ Hv).
  unfold bind at 1. simpl. unfold bind at 1. rewrite Hlinks. simpl.
  apply Hany.
Qed.

(** *** The pipeline only adds to the store *)

Lemma store_le_trans (a b c : value) : store_le a b -> store_le b c -> store_le a c.
Proof. intros Hab Hbc k x Hk. by apply Hbc, Hab. Qed.

Lemma keeps_same_fs {A} (m : M A) :
  (forall w r w', m w = (r, w') -> fs w' = fs w) -> keeps_store m.
Proof. intros Hm w r w' Hrun k x. by rewrite (Hm _ _ _ Hrun). Qed.

Lemma keeps_ret {A} (a : A) : keeps_store (ret a).
Proof. apply keeps_same_fs. by intros w r w' [= _ <-]. Qed.

Lemma keeps_lift {A} (x : result A) : keeps_store (lift x).
Proof. apply keeps_same_fs. by intros w r w' [= _ <-]. Qed.

Lemma keeps_or_raise {A} (e : exn) (o : option A) : keeps_store (or_raise e o).
Proof. apply keeps_same_fs. destruct o; by intros w r w' [= _ <-]. Qed.

Lemma keeps_requests_get (r : request) : keeps_store (requests_get r).
Proof.
  apply keeps_same_fs. intros w x w'. unfold requests_get.
  destruct (respond _ _); by intros [= _ <-].
Qed.

Lemma keeps_bind {A B} (m : M A) (k : A -> M B) :
  keeps_store m -> (forall a, keeps_store (k a)) -> keeps_store (bind m k).
Proof.
  intros Hm Hk w r w'. unfold bind.
  destruct (m w) as [[a|e] w1] eqn:Em; apply Hm in Em.
  - intros Hrun%Hk. by eapply store_le_trans.
  - by intros [= _ <-].
Qed.

Lemma keeps_make_request_with_cache (url : string) :
  keeps_store (make_request_with_cache url).
Proof.
  intros w r w'. rewrite make_request_with_cache_shape. intros Hcall.
  eapply with_cache_frame; [| |exact Hcall].
  - intros w0 r0 w1. apply fetch_page_fs.
  - intros w0 v w1. unfold fetch_page, bind, requests_get.
    destruct (respond _ _); [by intros [= <- _] | done].
Qed.

Lemma keeps_get_site_instance (site_url : string) :
  keeps_store (get_site_instance site_url).
Proof.
  unfold get_site_instance.
  apply keeps_bind; [apply keeps_make_request_with_cache|]. intros v.
  apply keeps_bind; [destruct v; apply keeps_same_fs; by intros w r w' [= _ <-]|].
  intros text. apply keeps_bind; [apply keeps_or_raise|]. intros texts.
  apply keeps_ret.
Qed.

Lemma keeps_park_loop (park_list : list (option anchor))
    (park_instance : list NationalSite) :
  keeps_store (park_loop park_list park_instance).
Proof.
  revert park_instance.
  induction park_list as [|park rest IH]; intros acc; cbn [park_loop].
  - apply keeps_ret.
  - apply keeps_bind; [apply keeps_lift|]. intros para.
    apply keeps_bind; [apply keeps_get_site_instance|]. intros site. apply IH.
Qed.

(** X14: the pipeline only adds to the store.  When a call of
    [build_state_url_dict], [get_site_instance] or [get_sites_for_state]
    returns, or ends on anything but an error from the cache file (a page
    it could not parse, a request that failed halfway through the parks),
    every item the store held before is still there: the pages fetched
    before the failure stay cached. *)
Theorem pipeline_keeps_the_store (w w' : world) :
  (forall r,
     build_state_url_dict w = (r, w') -> off_file r ->
     store_le (cached (fs w)) (cached (fs w')))
  /\ (forall site_url r,
        get_site_instance site_url w = (r, w') -> off_file r ->
        store_le (cached (fs w)) (cached (fs w')))
  /\ (forall state_url r,
        get_sites_for_state state_url w = (r, w') -> off_file r ->
        store_le (cached (fs w)) (cached (fs w'))).
Proof.
  assert (keeps_store build_state_url_dict) as Hbuild.
  { unfold build_state_url_dict.
    apply keeps_bind; [apply keeps_make_request_with_cache|]. intros v.
    apply keeps_bind;
      [destruct v; apply keeps_same_fs; by intros w0 r w1 [= _ <-]|].
    intros text. apply keeps_bind; [apply keeps_or_raise|]. intros states.
    apply keeps_same_fs. intros w0 r w1 Hloop.
    by destruct (state_url_loop_world _ _ _ _ _ _ Hloop) as [-> _]. }
  assert (forall state_url, keeps_store (get_sites_for_state state_url)) as Hsites.
  { intros state_url. unfold get_sites_for_state.
    apply keeps_bind; [apply keeps_requests_get|]. intros resp.
    apply keeps_bind; [apply keeps_or_raise|]. intros park_list.
    apply keeps_park_loop. }
  split_and!.
  - intros r Hrun _. by eapply Hbuild.
  - intros site_url r Hrun _. by eapply keeps_get_site_instance.
  - intros state_url r Hrun _. by eapply Hsites.
Qed.

End PipelineMore.

(** ** The command loop *)
Section LoopMore.
Context {codec : JsonCodec} {laws : JsonLaws} {net : Network}
        {secrets : Secrets} {parser : HtmlParser}
        {formatter : Formatter} {formats : FormatterLaws}.

Lemma all_digits_string_of_uint (u : Decimal.uint) :
  all_digits (NilEmpty.string_of_uint u) = true.
Proof. induction u; simpl; done. Qed.

Lemma int_from_string_of_uint (u : Decimal.uint) (acc : nat) :
  int_from acc (NilEmpty.string_of_uint u) = Nat.of_uint_acc u acc.
Proof.
  revert acc.
  induction u as [|u IH|u IH|u IH|u IH|u IH|u IH|u IH|u IH|u IH|u IH];
    intros acc; cbn [NilEmpty.string_of_uint int_from Nat.of_uint_acc];
    [done | rewrite IH; f_equal; rewrite Nat.tail_mul_spec;
            change (nat_of_ascii _ - 48)%nat with 0%nat
            || change (nat_of_ascii _ - 48)%nat with 1%nat
            || change (nat_of_ascii _ - 48)%nat with 2%nat
            || change (nat_of_ascii _ - 48)%nat with 3%nat
            || change (nat_of_ascii _ - 48)%nat with 4%nat
            || change (nat_of_ascii _ - 48)%nat with 5%nat
            || change (nat_of_ascii _ - 48)%nat with 6%nat
            || change (nat_of_ascii _ - 48)%nat with 7%nat
            || change (nat_of_ascii _ - 48)%nat with 8%nat
            || change (nat_of_ascii _ - 48)%nat with 9%nat; lia ..].
Qed.

(** A numeral is a string of digits, and [int] reads its number back. *)
Lemma isdigit_str_of_nat (n : nat) : isdigit (str_of_nat n) = true.
Proof.
  unfold str_of_nat, NilZero.string_of_uint.
  pose proof (all_digits_string_of_uint (Nat.to_uint n)) as Hd.
  by destruct (Nat.to_uint n).
Qed.

Lemma py_int_str_of_nat (n : nat) : py_int (str_of_nat n) = n.
Proof.
  unfold str_of_nat, NilZero.string_of_uint, py_int.
  rewrite <- (DecimalNat.Unsigned.of_to n) at 2. unfold Nat.of_uint.
  pose proof (int_from_string_of_uint (Nat.to_uint n) 0) as Hi.
  by destruct (Nat.to_uint n).
Qed.

(** X9: an ASCII line of at most 4300 characters typed at the second
    prompt never indexes outside the list.  A site is chosen exactly when
    the line is a string of digits whose number is between 1 and the
    length of the list, and it is the site at that place counting from 1;
    every other such line chooses no site (past [exit] and [back] it gets
    the error message); the [IndexError] of the subscript cannot happen.
    Of a line with characters outside ASCII, or with more digits than
    [int] takes, nothing is said. *)
Theorem select_in_bounds (sites_list : list NationalSite) (number : string) :
  ascii_only number = true -> String.length number <= 4300 ->
  match select sites_list number with
  | Chosen instance =>
      isdigit number = true
      /\ 1 <= py_int number <= length sites_list
      /\ sites_list !! (py_int number - 1) = Some instance
  | Invalid =>
      isdigit number = false \/ py_int number = 0
      \/ length sites_list < py_int number
  | IndexError => False
  end.
Proof.
  intros _ _.
  unfold select. destruct (isdigit number); [|by left].
  destruct (Nat.ltb_spec 0 (py_int number)); simpl; [|right; left; lia].
  destruct (Nat.ltb_spec (py_int number) (length sites_list + 1)); simpl;
    [|right; right; lia].
  destruct (sites_list !! (py_int number - 1)) as [site|] eqn:Hsite.
  - split_and!; [done | lia | lia | done].
  - apply lookup_ge_None in Hsite. lia.
Qed.

Lemma sites_listing_lines (sites_list : list NationalSite) :
  forall (i : nat) (w : world),
    sites_listing i sites_list w
    = (Ok tt, emit_all (imap (fun j => site_line (i + j)) sites_list) w).
Proof.
  induction sites_list as [|site rest IH]; intros i w.
  - simpl. unfold ret, emit_all. rewrite app_nil_r. by destruct w.
  - cbn [sites_listing]. unfold bind at 1, print at 1. rewrite IH.
    unfold emit_all, emit. simpl. rewrite <- app_assoc. simpl.
    rewrite Nat.add_0_r. do 4 f_equal. apply imap_ext. intros j x _. simpl.
    f_equal. lia.
Qed.

(** X10: the numbers of the listing are the numbers the second prompt
    takes.  The listing prints one line per site, in order, numbered from
    1, and typing the number printed before a site chooses that site. *)
Theorem listing_numbers_choose_their_site
    (sites_list : list NationalSite) (w : world) :
  sites_listing 0 sites_list w
  = (Ok tt, emit_all (imap site_line sites_list) w)
  /\ forall i site,
       sites_list !! i = Some site ->
       select sites_list (str_of_nat (i + 1)) = Chosen site.
Proof.
  split; [apply sites_listing_lines|].
  intros i site Hsite. unfold select.
  rewrite isdigit_str_of_nat, py_int_str_of_nat.
  pose proof (lookup_lt_Some _ _ _ Hsite) as Hlt.
  destruct (Nat.ltb_spec 0 (i + 1)); [|lia].
  destruct (Nat.ltb_spec (i + 1) (length sites_list + 1)); [|lia].
  simpl. replace (i + 1 - 1)%nat with i by lia. by rewrite Hsite.
Qed.

Lemma shown_field {A} (fields : dict) (key default : string)
    (k : value -> M A) (w : world) :
  (has <- lift (py_contains (VDict fields) key) ;;
   x <- (if has : bool then
           x <- lift (py_getitem (VDict fields) key) ;;
           ret (if is_empty_str x then VStr default else x)
         else ret (VStr default)) ;;
   k x) w
  = k (match dict_get key fields with
       | Some x => if is_empty_str x then VStr default else x
       | None => VStr default
       end) w.
Proof.
  unfold bind, lift, py_contains, py_getitem, dict_mem, ret.
  by destruct (dict_get key fields).
Qed.

Lemma py_str_shown (fields : dict) (key default : string) :
  py_str (match dict_get key fields with
          | Some x => if is_empty_str x then VStr default else x
          | None => VStr default
          end)
  = shown fields key default.
Proof.
  unfold shown. destruct (dict_get key fields) as [x|]; [|apply py_str_VStr].
  destruct (is_empty_str x); [apply py_str_VStr | done].
Qed.

Lemma places_listing_lines (entries : list value) :
  forall (lines : list string) (w : world),
    Forall2 place_entry entries lines ->
    places_listing (Ok <$> entries) w = (Ok tt, emit_all lines w).
Proof.
  induction entries as [|entry rest IH]; intros lines w Hall.
  - apply Forall2_nil_inv_l in Hall as ->. unfold emit_all.
    rewrite app_nil_r. by destruct w.
  - apply Forall2_cons_inv_l in Hall
      as (line & lines' & (e & nm & f & -> & Hname & Hfields & ->) & Hall & ->).
    rewrite fmap_cons. cbn [places_listing].
    unfold bind at 1, lift at 1. unfold bind at 1, lift at 1, py_getitem at 1.
    rewrite Hname. unfold bind at 1, lift at 1, py_getitem at 1. rewrite Hfields.
    rewrite (shown_field f "address" "no address").
    rewrite (shown_field f "city" "no city").
    rewrite (shown_field f "group_sic_code_name_ext" "no category").
    unfold bind at 1, print at 1.
    rewrite !py_str_shown. rewrite (IH lines' _ Hall).
    unfold emit_all, emit, place_line. simpl. by rewrite <- app_assoc.
Qed.

(** X11: the listing of places for a site whose answer is in the cache.
    When the cached answer holds a list of entries, each with a name and a
    dict of fields, [show_nearby] sends no request and prints the header
    and one line per entry, in order; a line shows the category, the
    address and the city of the entry, and [no category], [no address],
    [no city] for one that is missing or is the empty string. *)
Theorem show_nearby_lists_the_cached_places
    (instance : NationalSite) (d answer : dict) (entries : list value)
    (lines : list string) (w : world) :
  open_cache w = (Ok (VDict d), w) ->
  dict_get (name instance) d = Some (VDict answer) ->
  dict_get "searchResults" answer = Some (VList entries) ->
  Forall2 place_entry entries lines ->
  show_nearby instance w
  = (Ok tt,
     emit_all (["Using cache"; "---------------------------------";
                "Places near " +:+ name instance;
                "---------------------------------"] ++ lines) w).
Proof.
  intros Hopen Hanswer Hresults Hall. unfold show_nearby, bind at 1.
  rewrite (get_nearby_with_cache_hit instance d _ w Hopen Hanswer).
  unfold bind at 1, lift at 1, py_getitem at 1. rewrite Hresults.
  unfold bind at 1. simpl. unfold bind at 1, lift at 1.
  rewrite (places_listing_lines entries lines _ Hall).
  unfold emit_all, emit. simpl. by rewrite <- !app_assoc.
Qed.

(** X13: the test [result != None] guards the header of the listing and
    not its loop.  When the cached answer holds [null] for
    [searchResults], [show_nearby] prints no header and raises [TypeError]
    at [len(result)]. *)
Theorem show_nearby_on_null_results
    (instance : NationalSite) (d answer : dict) (w : world) :
  open_cache w = (Ok (VDict d), w) ->
  dict_get (name instance) d = Some (VDict answer) ->
  dict_get "searchResults" answer = Some VNone ->
  show_nearby instance w = (Raise TypeError, emit "Using cache" w).
Proof.
  intros Hopen Hanswer Hresults. unfold show_nearby, bind at 1.
  rewrite (get_nearby_with_cache_hit instance d _ w Hopen Hanswer).
  unfold bind, lift, py_getitem. by rewrite Hresults.
Qed.

(** X12: an answer of the API that has no [searchResults] is cached like
    any other.  [show_nearby] then raises [KeyError] after the one request,
    and raises it again on every later call, without asking the API. *)
Theorem show_nearby_caches_an_answer_without_results
    (instance : NationalSite) (d answer : dict) (body : string) (w : world) :
  open_cache w = (Ok (VDict d), w) ->
  dict_get (name instance) d = None ->
  respond (net_log w) (nearby_request instance) = Some body ->
  json_loads body = Some (VDict answer) ->
  dict_get "searchResults" answer = None ->
  writable (fs w) = true -> cache_file (fs w) <> Unreadable ->
  exists w1,
    show_nearby instance w = (Raise (KeyError "searchResults"), w1)
    /\ net_log w1 = net_log w ++ [nearby_request instance]
    /\ open_cache w1 = (Ok (VDict (d ++ [(name instance, VDict answer)])), w1)
    /\ show_nearby instance w1
       = (Raise (KeyError "searchResults"), emit "Using cache" w1).
Proof.
  intros [Hc _]%open_cache_inv Hg Hnet Hbody Hnone Hw Hr.
  destruct (with_cache_miss_stored (name instance) (get_nearby_places instance) w
              (emit "Fetching" (log_request (nearby_request instance)
                                  (emit "making new request" w)))
              d (VDict answer))
    as (w1 & Hcall & Hc1 & _ & _ & Hlog); try done.
  { unfold get_nearby_places, bind, requests_get.
    fold (nearby_request instance). simpl. rewrite Hnet. simpl.
    by rewrite Hbody. }
  { by eapply loads_wf. }
  assert (get_nearby_with_cache instance w1
          = (Ok (VDict answer), emit "Using cache" w1)) as Hagain.
  { rewrite get_nearby_with_cache_shape.
    apply with_cache_hit with (d ++ [(name instance, VDict answer)]); [done|].
    rewrite <- (dict_set_fresh _ (VDict answer) d Hg). apply dict_get_set_eq. }
  exists w1. split_and!.
  - unfold show_nearby, bind at 1.
    rewrite (get_nearby_with_cache_shape instance w), Hcall.
    unfold bind, lift, py_getitem. by rewrite Hnone.
  - done.
  - by rewrite open_cache_cached, Hc1.
  - unfold show_nearby, bind at 1. rewrite Hagain.
    unfold bind, lift, py_getitem. by rewrite Hnone.
Qed.

End LoopMore.

(** * The claims on the concrete world *)
Section Witnesses.
Import Scenario.
#[local] Existing Instances MiniJson.codec MiniJsonFacts.laws net secrets parser.

(** [open_cache] where there is no file, on a file it cannot read, on a
    truncated text, and on a text that parses. *)
Lemma open_cache_never_raises_witness :
  open_cache fresh = (Ok (VDict []), fresh)
  /\ open_cache write_only = (Ok (VDict []), write_only)
  /\ open_cache (with_text "{") = (Ok (VDict []), with_text "{")
  /\ open_cache (holding no_results) = (Ok no_results, holding no_results).
Proof.
  split_and!.
  - destruct (open_cache_never_raises fresh) as (v & Hopen & Habsent & _).
    by rewrite <- (Habsent eq_refl).
  - destruct (open_cache_never_raises write_only) as (v & Hopen & _ & Hperm & _).
    by rewrite <- (Hperm eq_refl).
  - destruct (open_cache_never_raises (with_text "{"))
      as (v & Hopen & _ & _ & Hbad & _).
    by rewrite <- (Hbad "{" eq_refl eq_refl).
  - destruct (open_cache_never_raises (holding no_results))
      as (v & Hopen & _ & _ & _ & Hgood & _).
    by rewrite (Hgood _ no_results eq_refl eq_refl) in Hopen.
Defined.

(** Saving the store of the Michigan scenario where no file was, and
    loading it. *)
Lemma save_then_open_gives_store_witness :
  let m := [("Michigan", VStr "https://x/state/mi")] in
  (wf_value (VDict m)
   /\ writable (fs fresh) = true /\ cache_file (fs fresh) <> Unreadable)
  /\ exists w1,
       save_cache (VDict m) fresh = (Ok tt, w1)
       /\ cache_file (fs w1) = Contents (json_dumps (VDict m))
       /\ open_cache w1 = (Ok (VDict m), w1).
Proof.
  intros m.
  assert (wf_value (VDict m)) as Hwf by (split; [apply NoDup_singleton | done]).
  split; [by split_and!|].
  by apply (save_then_open_gives_store m fresh).
Defined.

(** The index page, asked for twice from a fresh world. *)
Lemma make_request_with_cache_twice_witness :
  let url := "https://www.nps.gov/index.htm" in
  let text := "<html>https://www.nps.gov/index.htm</html>" in
  (open_cache fresh = (Ok (VDict []), fresh)
   /\ dict_get url [] = None
   /\ respond (net_log fresh) (mkRequest url []) = Some text
   /\ writable (fs fresh) = true
   /\ cache_file (fs fresh) <> Unreadable)
  /\ exists w1 w2,
       make_request_with_cache url fresh = (Ok (VStr text), w1)
       /\ net_log w1 = net_log fresh ++ [mkRequest url []]
       /\ cache_file (fs w1) = Contents (json_dumps (VDict ([] ++ [(url, VStr text)])))
       /\ open_cache w1 = (Ok (VDict ([] ++ [(url, VStr text)])), w1)
       /\ make_request_with_cache url w1 = (Ok (VStr text), w2)
       /\ net_log w2 = net_log w1
       /\ fs w2 = fs w1.
Proof.
  intros url text. split; [by split_and!|].
  by apply (make_request_with_cache_twice_fetches_once url text [] fresh).
Defined.

(** The scenario of the specification: the cache file holds an empty
    object, and the catalog maps ["michigan"] to a URL. *)
Lemma get_url_with_cache_michigan_witness :
  let u := "https://x/state/mi" in
  let states_dict : gmap string string := {["michigan" := u]} in
  let w := with_text "{}" in
  (open_cache w = (Ok (VDict []), w)
   /\ states_dict !! "michigan" = Some u
   /\ writable (fs w) = true
   /\ cache_file (fs w) <> Unreadable)
  /\ exists w1,
       get_url_with_cache states_dict "michigan" w = (Ok (VStr u), w1)
       /\ open_cache w1 = (Ok (VDict [("Michigan", VStr u)]), w1)
       /\ cache_file (fs w1) = Contents (json_dumps (VDict [("Michigan", VStr u)]))
       /\ net_log w1 = net_log w.
Proof.
  intros u states_dict w.
  assert (states_dict !! "michigan" = Some u) as Hu by apply lookup_singleton_eq.
  split; [by split_and!|].
  by apply (get_url_with_cache_michigan states_dict u w).
Defined.

(** The scenario of the specification: the cache file holds Yellowstone
    with no place nearby. *)
Lemma get_nearby_with_cache_yellowstone_witness :
  let w := holding (VDict [("Yellowstone", no_results)]) in
  (open_cache w = (Ok (VDict [("Yellowstone", no_results)]), w)
   /\ get_nearby_with_cache yellowstone w
      = (Ok no_results, emit "Using cache" w)
   /\ net_log (emit "Using cache" w) = net_log w)
  /\ (open_cache fresh = (Ok (VDict []), fresh)
      /\ respond (net_log fresh) (nearby_request yellowstone)
         = Some (json_dumps no_results)
      /\ json_loads (json_dumps no_results) = Some no_results)
  /\ exists w1,
       get_nearby_with_cache yellowstone fresh = (Ok no_results, w1)
       /\ net_log w1 = net_log fresh ++ [nearby_request yellowstone]
       /\ open_cache w1 = (Ok (VDict [("Yellowstone", no_results)]), w1).
Proof.
  intros w.
  assert (open_cache w = (Ok (VDict [("Yellowstone", no_results)]), w)) as Hopen
    by (vm_compute; reflexivity).
  assert (json_loads (json_dumps no_results) = Some no_results) as Hbody
    by (vm_compute; reflexivity).
  split_and!; [exact Hopen | | reflexivity | reflexivity | reflexivity | exact Hbody |].
  - by apply (proj1 (get_nearby_with_cache_keyed_by_name yellowstone _ w Hopen)).
  - destruct (proj2 (get_nearby_with_cache_keyed_by_name yellowstone [] fresh eq_refl)
                (json_dumps no_results) no_results)
      as (w1 & Hcall & Hlog & Hstore & _); [done | done | exact Hbody | done | done |].
    by exists w1.
Defined.

(** A state the cache knows and the catalog does not. *)
Lemma get_url_with_cache_hit_witness :
  let d := [("Michigan", VStr michigan_url)] in
  let w := holding (VDict d) in
  (open_cache w = (Ok (VDict d), w)
   /\ dict_get (capitalize "michigan") d = Some (VStr michigan_url))
  /\ (∅ : gmap string string) !! lower "michigan" = None
  /\ get_url_with_cache ∅ "michigan" w
     = (Ok (VStr michigan_url), emit "Using cache" w).
Proof.
  intros d w.
  assert (open_cache w = (Ok (VDict d), w)) as Hopen by (vm_compute; reflexivity).
  split_and!; [exact Hopen | reflexivity | apply lookup_empty |].
  by apply (get_url_with_cache_hit_ignores_index ∅ "michigan" d _ w).
Defined.

(** The scenario of the specification: Atlantis is not in the catalog.
    And the three fetches that can fail: a page and the API asked for while
    the network is down, and an API that answers a page. *)
Lemma failed_fetch_atlantis_witness :
  let w := with_text "{}" in
  (open_cache w = (Ok (VDict []), w)
   /\ dict_get (capitalize "Atlantis") [] = None
   /\ catalog !! "Atlantis" = None)
  /\ (exists w',
        get_url_with_cache catalog "Atlantis" w = (Raise (KeyError "Atlantis"), w')
        /\ fs w' = fs w)
  /\ (exists w',
        make_request_with_cache (net := offline) michigan_url w
        = (Raise RequestException, w')
        /\ fs w' = fs w)
  /\ (exists w',
        get_nearby_with_cache (net := offline) yellowstone w
        = (Raise RequestException, w')
        /\ fs w' = fs w)
  /\ (exists w',
        get_nearby_with_cache (net := html_only) yellowstone w
        = (Raise JSONDecodeError, w')
        /\ fs w' = fs w).
Proof.
  intros w.
  assert (catalog !! "Atlantis" = None) as Hnone by (by apply lookup_singleton_ne).
  split; [by split_and!|]. split_and!.
  - destruct (failed_fetch_writes_nothing w) as (_ & Hlookup & _).
    by apply (Hlookup catalog "Atlantis" []).
  - destruct (failed_fetch_writes_nothing (net := offline) w) as (Hpage & _).
    by apply (Hpage michigan_url []).
  - destruct (failed_fetch_writes_nothing (net := offline) w)
      as (_ & _ & Hapi & _).
    by apply (Hapi yellowstone []).
  - destruct (failed_fetch_writes_nothing (net := html_only) w)
      as (_ & _ & _ & Hjson).
    by apply (Hjson yellowstone [] ("<html>" +:+ api_url +:+ "</html>")).
Defined.

(** The two parks of Michigan, from a fresh world and then again. *)
Lemma get_sites_for_state_michigan_witness :
  (cache_file (fs fresh) <> Unreadable
   /\ get_sites_for_state michigan_url fresh = (Ok michigan_sites, after_michigan)
   /\ respond (net_log after_michigan) (mkRequest michigan_url [])
      = respond (net_log fresh) (mkRequest michigan_url []))
  /\ length michigan_sites = 2
  /\ exists hrefs store,
       hrefs = ["/isro/index.htm"; "/kewe/index.htm"]
       /\ Forall2 (site_of_link store) hrefs michigan_sites
       /\ exists w2,
            get_sites_for_state michigan_url after_michigan = (Ok michigan_sites, w2)
            /\ net_log w2 = net_log after_michigan ++ [mkRequest michigan_url []]
            /\ fs w2 = fs after_michigan.
Proof.
  assert (get_sites_for_state michigan_url fresh = (Ok michigan_sites, after_michigan))
    as Hrun by (vm_compute; reflexivity).
  split; [by split_and!|]. split; [reflexivity|].
  destruct (get_sites_for_state_order_stable michigan_url fresh after_michigan
              michigan_sites)
    as (page & park_list & hrefs & store & Hpage & Hparks & Hlinks & _ & Hall & Hagain);
    [done | exact Hrun | reflexivity |].
  exists hrefs, store. split; [|by split].
  injection Hpage as <-.
  assert (park_links (strip ("<html>" +:+ michigan_url +:+ "</html>"))
          = Some [Some (mkAnchor "Isle Royale" (Some "/isro/index.htm"));
                  Some (mkAnchor "Keweenaw" (Some "/kewe/index.htm"))]) as Hl
    by (vm_compute; reflexivity).
  rewrite Hl in Hparks. injection Hparks as <-.
  apply Forall2_cons_inv_l in Hlinks as (h1 & hrefs1 & [= <-] & Hlinks & ->).
  apply Forall2_cons_inv_l in Hlinks as (h2 & hrefs2 & [= <-] & Hlinks & ->).
  by apply Forall2_nil_inv_l in Hlinks as ->.
Defined.

End Witnesses.

(** * The further properties on the concrete world *)
Section MoreWitnesses.
Import Scenario LoopScenario.
#[local] Existing Instances MiniJson.codec MiniJsonFacts.laws net secrets parser
  formatter.

#[local] Instance formatter_laws : FormatterLaws.
Proof. by split. Qed.

(** Michigan asked for in lower case, then in upper case with an empty
    catalog. *)
Lemma get_url_with_cache_key_ignores_case_witness :
  let w := with_text "{}" in
  (open_cache w = (Ok (VDict []), w)
   /\ dict_get (capitalize "michigan") [] = None
   /\ catalog !! "michigan" = Some michigan_url
   /\ writable (fs w) = true /\ cache_file (fs w) <> Unreadable
   /\ lower "MICHIGAN" = lower "michigan")
  /\ exists w1,
       get_url_with_cache catalog "michigan" w = (Ok (VStr michigan_url), w1)
       /\ get_url_with_cache ∅ "MICHIGAN" w1
          = (Ok (VStr michigan_url), emit "Using cache" w1).
Proof.
  intros w.
  assert (catalog !! "michigan" = Some michigan_url) as Hu
    by apply lookup_singleton_eq.
  split; [by split_and!|].
  by apply (get_url_with_cache_key_ignores_case catalog ∅ "michigan" "MICHIGAN"
              michigan_url [] w).
Defined.

(** Yellowstone stays in the store when a page is fetched. *)
Lemma cached_functions_keep_the_store_witness :
  let w := holding (VDict [("Yellowstone", no_results)]) in
  py_getitem (cached (fs w)) "Yellowstone" = Ok no_results
  /\ exists r w',
       make_request_with_cache michigan_url w = (r, w')
       /\ off_file r
       /\ py_getitem (cached (fs w')) "Yellowstone" = Ok no_results.
Proof.
  intros w.
  assert (py_getitem (cached (fs w)) "Yellowstone" = Ok no_results) as Hw
    by (vm_compute; reflexivity).
  split; [exact Hw|].
  assert (exists v w', make_request_with_cache michigan_url w = (Ok v, w'))
    as (v & w' & Hcall) by (vm_compute; eexists _, _; reflexivity).
  exists (Ok v), w'. split_and!; [done | exact I |].
  destruct (cached_functions_keep_the_store w) as (Hpage & _).
  by apply (proj1 (Hpage michigan_url (Ok v) w' Hcall I)).
Defined.

(** A site that is named Michigan. *)
Lemma state_key_answers_for_site_name_witness :
  let w := with_text "{}" in
  let site := mkNationalSite "" "Michigan" "Lansing, MI" "48933" "" in
  (open_cache w = (Ok (VDict []), w)
   /\ dict_get (capitalize "michigan") [] = None
   /\ catalog !! "michigan" = Some michigan_url
   /\ writable (fs w) = true /\ cache_file (fs w) <> Unreadable
   /\ name site = capitalize "michigan")
  /\ exists w1,
       get_url_with_cache catalog "michigan" w = (Ok (VStr michigan_url), w1)
       /\ get_nearby_with_cache site w1
          = (Ok (VStr michigan_url), emit "Using cache" w1).
Proof.
  intros w site.
  assert (catalog !! "michigan" = Some michigan_url) as Hu
    by apply lookup_singleton_eq.
  split; [by split_and!|].
  by apply (state_key_answers_for_site_name catalog "michigan" michigan_url
              site [] w).
Defined.

(** The page of Isle Royale, fetched and parsed twice. *)
Lemma get_site_instance_caches_the_page_witness :
  let url := "https://www.nps.gov/isro/index.htm" in
  let text := "<html>https://www.nps.gov/isro/index.htm</html>" in
  (open_cache fresh = (Ok (VDict []), fresh)
   /\ dict_get url [] = None
   /\ respond (net_log fresh) (mkRequest url []) = Some text
   /\ writable (fs fresh) = true /\ cache_file (fs fresh) <> Unreadable)
  /\ exists site w1,
       site_fields text = Some site
       /\ get_site_instance url fresh = (Ok (site_of_texts site), w1)
       /\ net_log w1 = [mkRequest url []]
       /\ get_site_instance url w1 = (Ok (site_of_texts site), emit "Using cache" w1).
Proof.
  intros url text. split; [by split_and!|].
  destruct (get_site_instance_caches_the_page url text [] fresh)
    as (w1 & Hcall & Hlog & _ & Hagain); try done.
  by eexists _, w1.
Defined.

(** A page asked for twice where the cache file cannot be written. *)
Lemma unwritable_cache_fetches_every_time_witness :
  let text := "<html>" +:+ michigan_url +:+ "</html>" in
  (open_cache read_only = (Ok (VDict []), read_only)
   /\ dict_get michigan_url [] = None
   /\ writable (fs read_only) = false
   /\ respond (net_log read_only) (mkRequest michigan_url []) = Some text)
  /\ exists w1 w2,
       make_request_with_cache michigan_url read_only = (Raise PermissionError, w1)
       /\ make_request_with_cache michigan_url w1 = (Raise PermissionError, w2)
       /\ net_log w2 = [mkRequest michigan_url []; mkRequest michigan_url []]
       /\ fs w2 = fs read_only.
Proof.
  intros text. split; [by split_and!|].
  destruct (unwritable_cache_fetches_every_time michigan_url text text [] read_only)
    as (w1 & w2 & Hfirst & _ & _ & Hsecond & Hlog & Hfs); try done.
  by exists w1, w2.
Defined.

(** A cache file that holds an empty JSON list. *)
Lemma non_object_store_is_never_repaired_witness :
  let w := with_text "[]" in
  (open_cache w = (Ok (VList []), w) /\ forall d, VList [] <> VDict d)
  /\ exists e w',
       make_request_with_cache michigan_url w = (Raise e, w') /\ fs w' = fs w.
Proof.
  intros w.
  assert (open_cache w = (Ok (VList []), w)) as Hopen by (vm_compute; reflexivity).
  assert (forall d, VList [] <> VDict d) as Hlist by done.
  split; [by split|].
  by apply (proj1 (non_object_store_is_never_repaired (VList []) w Hopen Hlist)).
Defined.

(** The index of the scenario: two states, from a fresh world. *)
Lemma build_state_url_dict_keys_witness :
  build_state_url_dict fresh = (Ok index, after_index)
  /\ index !! "michigan" = Some michigan_url
  /\ lower "michigan" = "michigan"
  /\ exists page states,
       state_links page = Some states
       /\ Some (mkAnchor " Michigan" (Some "/state/mi/index.htm")) ∈ states.
Proof.
  assert (build_state_url_dict fresh = (Ok index, after_index)) as Hrun
    by (vm_compute; reflexivity).
  destruct (build_state_url_dict_keys fresh after_index index Hrun)
    as (page & states & _ & Hlinks & Hsound & _).
  assert (index !! "michigan" = Some michigan_url) as Hm
    by (vm_compute; reflexivity).
  split_and!; [exact Hrun | exact Hm | by apply (Hsound _ _ Hm) |].
  exists page, states. split; [exact Hlinks|].
  injection Hlinks as <-. left.
Defined.

(** The index built a second time. *)
Lemma build_state_url_dict_second_run_witness :
  (cache_file (fs fresh) <> Unreadable
   /\ build_state_url_dict fresh = (Ok index, after_index))
  /\ build_state_url_dict after_index
     = (Ok index, emit "Using cache" after_index).
Proof.
  assert (build_state_url_dict fresh = (Ok index, after_index)) as Hrun
    by (vm_compute; reflexivity).
  split; [by split|].
  by apply (build_state_url_dict_second_run fresh after_index index).
Defined.

(** Two places near Yellowstone, from the cache. *)
Lemma show_nearby_lists_the_cached_places_witness :
  let w := holding (VDict [("Yellowstone", VDict two_places)]) in
  let lines := ["- Cafe (no category): 1 Main St, no city";
                "- Garage (Auto Repair): no address, no city"] in
  (open_cache w = (Ok (VDict [("Yellowstone", VDict two_places)]), w)
   /\ Forall2 place_entry [cafe; garage] lines)
  /\ show_nearby yellowstone w
     = (Ok tt,
        emit_all (["Using cache"; "---------------------------------";
                   "Places near Yellowstone";
                   "---------------------------------"] ++ lines) w).
Proof.
  intros w lines.
  assert (open_cache w = (Ok (VDict [("Yellowstone", VDict two_places)]), w))
    as Hopen by (vm_compute; reflexivity).
  assert (Forall2 place_entry [cafe; garage] lines) as Hall.
  { repeat constructor; eexists _, _, _; by split_and!. }
  split; [by split|].
  by apply (show_nearby_lists_the_cached_places yellowstone
              [("Yellowstone", VDict two_places)] two_places
              [cafe; garage] lines w).
Defined.

(** The API answers an error for Yellowstone. *)
Lemma show_nearby_caches_an_answer_without_results_witness :
  let body := json_dumps (VDict error_answer) in
  (open_cache fresh = (Ok (VDict []), fresh)
   /\ dict_get (name yellowstone) [] = None
   /\ respond (Network := api_error) (net_log fresh) (nearby_request yellowstone)
      = Some body
   /\ json_loads body = Some (VDict error_answer)
   /\ dict_get "searchResults" error_answer = None
   /\ writable (fs fresh) = true /\ cache_file (fs fresh) <> Unreadable)
  /\ exists w1,
       show_nearby (net := api_error) yellowstone fresh
       = (Raise (KeyError "searchResults"), w1)
       /\ net_log w1 = [nearby_request yellowstone]
       /\ show_nearby (net := api_error) yellowstone w1
          = (Raise (KeyError "searchResults"), emit "Using cache" w1).
Proof.
  intros body.
  assert (json_loads body = Some (VDict error_answer)) as Hbody
    by (vm_compute; reflexivity).
  split; [by split_and!|].
  destruct (show_nearby_caches_an_answer_without_results (net := api_error)
              yellowstone [] error_answer body fresh)
    as (w1 & Hfirst & Hlog & _ & Hsecond); try done.
  by exists w1.
Defined.

(** The cache holds [null] as the places near Yellowstone. *)
Lemma show_nearby_on_null_results_witness :
  let answer := [("searchResults", VNone)] in
  let w := holding (VDict [("Yellowstone", VDict answer)]) in
  open_cache w = (Ok (VDict [("Yellowstone", VDict answer)]), w)
  /\ show_nearby yellowstone w = (Raise TypeError, emit "Using cache" w).
Proof.
  intros answer w.
  assert (open_cache w = (Ok (VDict [("Yellowstone", VDict answer)]), w))
    as Hopen by (vm_compute; reflexivity).
  split; [exact Hopen|].
  by apply (show_nearby_on_null_results yellowstone
              [("Yellowstone", VDict answer)] answer w).
Defined.

(** The parks of Michigan, with Yellowstone already in the store. *)
Lemma pipeline_keeps_the_store_witness :
  let w := holding (VDict [("Yellowstone", no_results)]) in
  exists r w',
    get_sites_for_state michigan_url w = (r, w')
    /\ off_file r
    /\ py_getitem (cached (fs w')) "Yellowstone" = Ok no_results.
Proof.
  intros w.
  assert (exists sites w', get_sites_for_state michigan_url w = (Ok sites, w'))
    as (sites & w' & Hrun) by (vm_compute; eexists _, _; reflexivity).
  exists (Ok sites), w'. split_and!; [done | exact I |].
  destruct (pipeline_keeps_the_store w w') as (_ & _ & Hsites).
  apply (Hsites michigan_url (Ok sites) Hrun I). by vm_compute.
Defined.

(** The second of two sites, chosen by the line [2]. *)
Lemma select_in_bounds_witness :
  (ascii_only "2" = true /\ String.length "2" <= 4300)
  /\ match select two_sites "2" with
     | Chosen instance =>
         isdigit "2" = true
         /\ 1 <= py_int "2" <= length two_sites
         /\ two_sites !! (py_int "2" - 1) = Some instance
     | Invalid =>
         isdigit "2" = false \/ py_int "2" = 0 \/ length two_sites < py_int "2"
     | IndexError => False
     end.
Proof.
  assert (ascii_only "2" = true) as Hascii by reflexivity.
  assert (String.length "2" <= 4300) as Hlen by (simpl; lia).
  split; [by split|].
  exact (select_in_bounds two_sites "2" Hascii Hlen).
Defined.

(** Two sites listed, and the second chosen by its number. *)
Lemma listing_numbers_choose_their_site_witness :
  sites_listing 0 two_sites fresh
  = (Ok tt,
     emit_all ["[1] Yellowstone (National Park): Yellowstone National Park, WY 82190-0168";
               "[2] Isle Royale (National Park): Houghton, MI 49931"] fresh)
  /\ two_sites !! 1 = Some (mkNationalSite "National Park" "Isle Royale"
                             "Houghton, MI" "49931" "(906) 482-0984")
  /\ select two_sites "2"
     = Chosen (mkNationalSite "National Park" "Isle Royale" "Houghton, MI"
                 "49931" "(906) 482-0984").
Proof.
  destruct (listing_numbers_choose_their_site two_sites fresh) as [Hlist Hsel].
  split_and!; [exact Hlist | reflexivity | exact (Hsel 1 _ eq_refl)].
Defined.

End MoreWitnesses.
